(** * MAWpy: home-location identification (src/mawpy/utilities/identify_home.py)

    A shallow embedding of [HomeLocationIdentifier]: the instance fields are a
    record threaded through an error/state monad, its prints are an event list,
    and every pandas / geopandas call of the source is a list function that
    follows the library operation it stands for. *)

From Stdlib Require Import String Ascii ZArith QArith Bool Lia Sorted Permutation List.
Import ListNotations.
Local Open Scope string_scope.
Local Open Scope Z_scope.
Local Open Scope list_scope.

Set Implicit Arguments.

(* ================================================================== *)
(** ** Keys and their ordering *)

(** [groupby] sorts its group keys; the comparison is the one Python uses on
    the key values: integers by value, strings by code point, tuples
    lexicographically. *)
Class Compare (K : Type) := cmp : K -> K -> comparison.

#[export] Instance Z_Compare : Compare Z := Z.compare.
#[export] Instance string_Compare : Compare string := String.compare.
#[export] Instance pair_Compare {A B : Type} `{Compare A} `{Compare B}
  : Compare (A * B) :=
  fun x y => match cmp (fst x) (fst y) with
             | Eq => cmp (snd x) (snd y)
             | c => c
             end.

Class CompareLaws (K : Type) `{Compare K} := {
  cmp_eq : forall x y : K, cmp x y = Eq <-> x = y;
  cmp_antisym : forall x y : K, cmp y x = CompOpp (cmp x y);
  cmp_lt_trans : forall x y z : K, cmp x y = Lt -> cmp y z = Lt -> cmp x z = Lt
}.
Arguments CompareLaws K {_}.

Definition key_eqb {K : Type} `{Compare K} (x y : K) : bool :=
  match cmp x y with Eq => true | _ => false end.

(* ================================================================== *)
(** ** Exceptions *)

Inductive exn : Type :=
| TypeError             (* subscripting or merging a field that is still None *)
| AttributeError        (* an attribute of a field that is still None *)
| ValueError            (* argmax of an empty sequence *)
| KeyError              (* .loc with a label that is not in the index *)
| OutOfBoundsDatetime.  (* an epoch that datetime64[ns] cannot hold *)

Inductive result (A : Type) : Type :=
| Ok (a : A)
| Raise (e : exn).
Arguments Ok {A} a.
Arguments Raise {A} e.

Definition rbind {A B : Type} (r : result A) (k : A -> result B) : result B :=
  match r with Ok a => k a | Raise e => Raise e end.

Fixpoint rmap {A B : Type} (f : A -> result B) (l : list A) : result (list B) :=
  match l with
  | [] => Ok []
  | a :: rest =>
      rbind (f a) (fun b => rbind (rmap f rest) (fun bs => Ok (b :: bs)))
  end.

(* ================================================================== *)
(** ** pandas operations used by the source *)

Section Pandas.

(** [Series.unique()]: the distinct values in order of first appearance. *)
Fixpoint unique {A : Type} (eqb : A -> A -> bool) (l : list A) : list A :=
  match l with
  | [] => []
  | a :: rest => a :: filter (fun b => negb (eqb a b)) (unique eqb rest)
  end.

(** [Series.nunique()]. *)
Definition nunique {A : Type} (eqb : A -> A -> bool) (l : list A) : Z :=
  Z.of_nat (length (unique eqb l)).

(** [DataFrame.groupby(keys)] with the defaults [sort=True, dropna=True]:
    groups come out in ascending key order, rows whose key is missing are
    dropped, and inside a group the rows keep their original order. *)
Fixpoint group_insert {K V : Type} `{Compare K}
         (k : K) (v : V) (gs : list (K * list V)) : list (K * list V) :=
  match gs with
  | [] => [(k, [v])]
  | (k', vs) :: rest =>
      match cmp k k' with
      | Lt => (k, [v]) :: gs
      | Eq => (k', v :: vs) :: rest
      | Gt => (k', vs) :: group_insert k v rest
      end
  end.

Definition groupby {K V : Type} `{Compare K}
           (key : V -> option K) (rows : list V) : list (K * list V) :=
  fold_right (fun r gs => match key r with
                          | Some k => group_insert k r gs
                          | None => gs
                          end) [] rows.

(** The rows of [rows] that fall in the group of key [k]. *)
Definition has_key {K V : Type} `{Compare K}
           (key : V -> option K) (k : K) (r : V) : bool :=
  match key r with Some k' => key_eqb k' k | None => false end.

(** The rows stored under key [k] in a grouped frame (none: empty). *)
Definition group_of {K V : Type} `{Compare K}
           (k : K) (gs : list (K * list V)) : list V :=
  match find (fun g => key_eqb (fst g) k) gs with
  | Some g => snd g
  | None => []
  end.

Definition key_lt {K V : Type} `{Compare K} (a b : K * V) : Prop :=
  cmp (fst a) (fst b) = Lt.

(** [left.merge(right, on=..., how='left')]: every left row, in left order,
    once per matching right row, or once with the right columns missing. *)
Definition merge_left {L R O : Type}
           (on : L -> R -> bool) (row : L -> option R -> O)
           (left : list L) (right : list R) : list O :=
  flat_map (fun l => match filter (on l) right with
                     | [] => [row l None]
                     | rs => map (fun r => row l (Some r)) rs
                     end) left.

(** A frame with the default [RangeIndex]: row [i] carries label [i]. *)
Definition range_index {A : Type} (rows : list A) : list (nat * A) :=
  combine (seq 0 (length rows)) rows.

(** [Series.idxmax()]: the label of the first occurrence of the maximum;
    on an empty series it raises. *)
Fixpoint argmax_from (best : nat * Z) (s : list (nat * Z)) : nat :=
  match s with
  | [] => fst best
  | r :: rest =>
      if snd best <? snd r then argmax_from r rest else argmax_from best rest
  end.

Definition idxmax (s : list (nat * Z)) : result nat :=
  match s with
  | [] => Raise ValueError
  | r :: rest => Ok (argmax_from r rest)
  end.

(** [frame.loc[labels]]: for each label the rows carrying it; a label that
    is absent from the index raises. *)
Definition loc {A : Type} (frame : list (nat * A)) (labels : list nat)
  : result (list (nat * A)) :=
  rbind (rmap (fun l => match filter (fun r => Nat.eqb (fst r) l) frame with
                        | [] => Raise KeyError
                        | rs => Ok rs
                        end) labels)
        (fun chunks => Ok (concat chunks)).

(** [pd.to_datetime(column, unit='s')] on a column of whole seconds: the
    result is a datetime64[ns] column, a signed 64-bit count of nanoseconds,
    so the conversion raises as soon as one value times 10^9 does not fit.
    Statements that need the conversion to succeed assume every value in
    range; the model carries no missing timestamp (numpy reads the one value
    -2^63 as such). *)
Definition datetime_min : Z := -9223372036.
Definition datetime_max : Z := 9223372036.

Definition in_datetime_range (t : Z) : bool :=
  (datetime_min <=? t) && (t <=? datetime_max).

Definition to_datetime (column : list Z) : result (list Z) :=
  if forallb in_datetime_range column then Ok column
  else Raise OutOfBoundsDatetime.

End Pandas.

(* ================================================================== *)
(** ** Data model *)

(** One row of the input CSV.  Coordinates are rationals: every finite
    float is one. *)
Record Ping : Type := mkPing {
  user_ID : Z;
  unix_start_t : Z;
  orig_long : Q;
  orig_lat : Q
}.

(** [pd.to_datetime(unix_start_t, unit='s')] is a zone-less timestamp; its
    [.dt.hour] and [.dt.date] are functions of the epoch seconds alone, so the
    derived columns ['datetime'], ['hour'] and ['date'] are kept as
    functions of the row.  They are written for every integer; a loaded
    frame only holds epochs that [to_datetime] accepts (see
    [load_data_checked]). *)
Definition datetime (p : Ping) : Z := unix_start_t p.
Definition hour (p : Ping) : Z := (datetime p / 3600) mod 24.
(** The calendar date, as the number of days since 1970-01-01. *)
Definition date (p : Ping) : Z := datetime p / 86400.

(** A row of the shapefile. *)
Record Tract (polygon : Type) : Type := mkTract {
  GEOID : string;
  geometry : polygon
}.

(** A row of the spatial join: the ping, and the GEOID of a tract that
    contains it (missing when no tract does). *)
Record JoinedRow : Type := mkJoined {
  j_ping : Ping;
  j_GEOID : option string
}.

(** A row of [self.days_available]. *)
Record CoverageRow : Type := mkCoverage {
  c_user_ID : Z;
  c_number_of_days : Z;
  c_min_visits : Z
}.

(** A row of [visit_counts]; the two merged columns are missing when the
    left merge finds no coverage row. *)
Record VisitRow : Type := mkVisit {
  v_user_ID : Z;
  v_GEOID : string;
  v_visit_count : Z;
  v_number_of_days : option Z;
  v_min_visits : option Z
}.

(** A row of the output CSV: the four selected columns. *)
Record HomeRow : Type := mkHome {
  h_user_ID : Z;
  h_GEOID : string;
  h_number_of_days : option Z;
  h_visit_count : Z
}.

(** What the methods print. *)
Inductive Msg : Type :=
| MsgLoadedUsers (n : Z)
| MsgNightRecords (n : Z)
| MsgNightUsers (n : Z)
| MsgNightUserIDs (ids : list Z)
| MsgDaysAvailable (t : list CoverageRow)
| MsgJoinedRecords (n : Z)
| MsgVisitCounts (t : list (nat * VisitRow))
| MsgNoHome (user : Z)   (* "User ID .. has nighttime data but does not meet .." *)
| MsgHomeLocations (t : list (nat * VisitRow)).

(* ================================================================== *)
(** ** The class *)

Section HomeLocationIdentifier.

(** The geometry library is outside the program: a tract's boundary is an
    opaque polygon and [within long lat poly] is shapely's
    [Point(long, lat).within(poly)]. *)
Variable polygon : Type.
Variable within : Q -> Q -> polygon -> bool.

(** The instance fields ([__init__] sets the four tables to None). *)
Record Self : Type := mkSelf {
  start_hour : Z;
  end_hour : Z;
  df : option (list Ping);
  tracts : option (list (Tract polygon));
  night_data : option (list Ping);
  days_available : option (list CoverageRow);
  stdout : list Msg;                       (* printed so far, oldest first *)
  output_file : option (list HomeRow)      (* what [to_csv] wrote *)
}.

Definition init (start_hour end_hour : Z) : Self :=
  mkSelf start_hour end_hour None None None None [] None.

(** Methods run in an error/state monad over [Self]. *)
Definition M (A : Type) : Type := Self -> result (A * Self).

Definition ret {A : Type} (a : A) : M A := fun s => Ok (a, s).
Definition bind {A B : Type} (m : M A) (k : A -> M B) : M B :=
  fun s => match m s with
           | Ok (a, s') => k a s'
           | Raise e => Raise e
           end.
Definition get {A : Type} (field : Self -> option A) : M A :=
  fun s => match field s with
           | Some a => Ok (a, s)
           | None => Raise TypeError
           end.
Definition modify (f : Self -> Self) : M unit := fun s => Ok (tt, f s).
Definition print (m : Msg) : M unit :=
  modify (fun s => mkSelf (start_hour s) (end_hour s) (df s) (tracts s)
                          (night_data s) (days_available s)
                          (stdout s ++ [m]) (output_file s)).
Definition get_attr {A : Type} (field : Self -> option A) : M A :=
  fun s => match field s with
           | Some a => Ok (a, s)
           | None => Raise AttributeError
           end.
Definition lift {A : Type} (r : result A) : M A :=
  fun s => match r with Ok a => Ok (a, s) | Raise e => Raise e end.

Notation "x <- m ;; k" := (bind m (fun x => k))
  (at level 61, m at next level, right associativity).
Notation "m ;;; k" := (bind m (fun _ => k))
  (at level 61, right associativity).

Definition set_df (v : list Ping) (s : Self) : Self :=
  mkSelf (start_hour s) (end_hour s) (Some v) (tracts s) (night_data s)
         (days_available s) (stdout s) (output_file s).
Definition set_tracts (v : list (Tract polygon)) (s : Self) : Self :=
  mkSelf (start_hour s) (end_hour s) (df s) (Some v) (night_data s)
         (days_available s) (stdout s) (output_file s).
Definition set_night_data (v : list Ping) (s : Self) : Self :=
  mkSelf (start_hour s) (end_hour s) (df s) (tracts s) (Some v)
         (days_available s) (stdout s) (output_file s).
Definition set_days_available (v : list CoverageRow) (s : Self) : Self :=
  mkSelf (start_hour s) (end_hour s) (df s) (tracts s) (night_data s)
         (Some v) (stdout s) (output_file s).
Definition set_output_file (v : list HomeRow) (s : Self) : Self :=
  mkSelf (start_hour s) (end_hour s) (df s) (tracts s) (night_data s)
         (days_available s) (stdout s) (Some v).

(** *** __init__: the lookup table, days 5..21 *)
Definition min_visits_table : list (Z * Z) :=
  combine (map Z.of_nat (seq 5 17))
          [2; 2; 2; 2; 2; 3; 3; 3; 3; 3; 4; 4; 4; 4; 4; 4; 4].

(** *** load_data: the two files are read outside the core *)

(** [load_data] on a CSV file whose [unix_start_t] column converts: [csv] is
    the frame after line 49.  The conversion itself is in
    [load_data_checked]. *)
Definition load_data (csv : list Ping) (shp : list (Tract polygon)) : M unit :=
  modify (set_df csv) ;;;
  modify (set_tracts shp) ;;;
  print (MsgLoadedUsers (nunique Z.eqb (map user_ID csv))).

(** [load_data] on any CSV file: [self.df] is replaced, then [to_datetime]
    converts the epochs or raises, and only then are the tracts read. *)
Definition load_data_checked (csv : list Ping) (shp : list (Tract polygon))
  : M unit :=
  modify (set_df csv) ;;;
  lift (to_datetime (map unix_start_t csv)) ;;;
  modify (set_tracts shp) ;;;
  print (MsgLoadedUsers (nunique Z.eqb (map user_ID csv))).

(** *** filter_night_time_data *)
Definition night_mask (start_hour end_hour h : Z) : bool :=
  if start_hour <? end_hour
  then (start_hour <=? h) && (h <? end_hour)
  else (start_hour <=? h) || (h <? end_hour).

Definition night_rows (start_hour end_hour : Z) (rows : list Ping) : list Ping :=
  filter (fun p => night_mask start_hour end_hour (hour p)) rows.

Definition filter_night_time_data : M unit :=
  rows <- get df ;;
  sh <- (fun s => Ok (start_hour s, s)) ;;
  eh <- (fun s => Ok (end_hour s, s)) ;;
  let night := night_rows sh eh rows in
  modify (set_night_data night) ;;;
  print (MsgNightRecords (Z.of_nat (length night))) ;;;
  print (MsgNightUsers (nunique Z.eqb (map user_ID night))) ;;;
  print (MsgNightUserIDs (unique Z.eqb (map user_ID night))).

(** *** calculate_days_available *)

(** [groupby('user_ID')['date'].nunique().reset_index()] *)
Definition days_per_user (night : list Ping) : list (Z * Z) :=
  map (fun g => (fst g, nunique Z.eqb (map date (snd g))))
      (groupby (fun p => Some (user_ID p)) night).

(** [.merge(self.min_visits_table, on='number_of_days', how='left')] *)
Definition with_table (days : list (Z * Z)) : list (Z * Z * option Z) :=
  merge_left (fun l (r : Z * Z) => snd l =? fst r)
             (fun l r => (fst l, snd l, option_map snd r))
             days min_visits_table.

(** [math.ceil(n / 7)] on an integral [n]. *)
Definition ceil_div7 (n : Z) : Z := - ((- n) / 7).

(** The row-wise lambda. *)
Definition apply_formula (row : Z * Z * option Z) : option Z :=
  let '(_, number_of_days, min_visits) := row in
  if 21 <? number_of_days then Some (ceil_div7 number_of_days) else min_visits.

(** [.fillna(0).astype(int)] *)
Definition fillna0 (v : option Z) : Z :=
  match v with Some x => x | None => 0 end.

(** The three statements that fill the ['min_visits'] column. *)
Definition assign_min_visits (days : list (Z * Z)) : list CoverageRow :=
  map (fun row => mkCoverage (fst (fst row)) (snd (fst row))
                             (fillna0 (apply_formula row)))
      (with_table days).

Definition days_available_table (night : list Ping) : list CoverageRow :=
  assign_min_visits (days_per_user night).

Definition calculate_days_available : M unit :=
  night <- get night_data ;;
  let t := days_available_table night in
  modify (set_days_available t) ;;;
  print (MsgDaysAvailable t).

(** *** spatial_join *)

(** [gpd.sjoin(points, tracts, how='left', predicate='within')]: a left
    join on containment, one row per (ping, containing tract) pair in tract
    order, and one row with the tract columns missing for a ping that no
    tract contains. *)
Definition sjoin_left_within (night : list Ping) (zones : list (Tract polygon))
  : list JoinedRow :=
  merge_left (fun p z => within (orig_long p) (orig_lat p) (geometry z))
             (fun p z => mkJoined p (option_map (@GEOID polygon) z))
             night zones.

Definition spatial_join : M (list JoinedRow) :=
  night <- get night_data ;;
  zones <- get_attr tracts ;;
  let joined := sjoin_left_within night zones in
  print (MsgJoinedRecords (Z.of_nat (length joined))) ;;;
  ret joined.

(** *** count_visits *)

(** [groupby(['user_ID', 'GEOID']).size().reset_index(name='visit_count')] *)
Definition group_sizes (joined : list JoinedRow) : list (Z * string * Z) :=
  map (fun g => (fst g, Z.of_nat (length (snd g))))
      (groupby (fun j => option_map (fun g => (user_ID (j_ping j), g)) (j_GEOID j))
               joined).

(** [.merge(self.days_available, on='user_ID', how='left')]; the merged
    frame has a fresh RangeIndex. *)
Definition visit_counts_table (joined : list JoinedRow) (cov : list CoverageRow)
  : list (nat * VisitRow) :=
  range_index
    (merge_left (fun (l : Z * string * Z) c => fst (fst l) =? c_user_ID c)
                (fun l c => mkVisit (fst (fst l)) (snd (fst l)) (snd l)
                                    (option_map c_number_of_days c)
                                    (option_map c_min_visits c))
                (group_sizes joined) cov).

Definition count_visits (joined : list JoinedRow) : M (list (nat * VisitRow)) :=
  cov <- get days_available ;;
  let visit_counts := visit_counts_table joined cov in
  print (MsgVisitCounts visit_counts) ;;;
  ret visit_counts.

(** *** filter_home_locations *)

(** [visit_count >= min_visits]; a comparison with a missing value is False. *)
Definition meets_min_visits (r : VisitRow) : bool :=
  match v_min_visits r with
  | Some m => m <=? v_visit_count r
  | None => false
  end.

Definition qualifying (visit_counts : list (nat * VisitRow)) : list (nat * VisitRow) :=
  filter (fun r => meets_min_visits (snd r)) visit_counts.

Definition frame_users (t : list (nat * VisitRow)) : list Z :=
  unique Z.eqb (map (fun r => v_user_ID (snd r)) t).

(** [set(a) - set(b)].  A Python set is iterated in an order the language
    does not fix; the list below holds the right elements, once each, and its
    order (first appearance) stands for whatever order the loop takes, so
    statements about the notices speak of membership or of lists up to
    [Permutation], never of positions. *)
Definition set_minus (a b : list Z) : list Z :=
  filter (fun u => negb (existsb (Z.eqb u) b)) a.

Definition users_without_home_locations (visit_counts : list (nat * VisitRow))
  : list Z :=
  set_minus (frame_users visit_counts) (frame_users (qualifying visit_counts)).

(** [home_locations.groupby('user_ID')['visit_count'].idxmax()] *)
Definition idxmax_per_user (home_locations : list (nat * VisitRow))
  : result (list nat) :=
  rmap (fun g => idxmax (map (fun r => (fst r, v_visit_count (snd r))) (snd g)))
       (groupby (fun r => Some (v_user_ID (snd r))) home_locations).

Definition most_visited (home_locations : list (nat * VisitRow))
  : result (list (nat * VisitRow)) :=
  rbind (idxmax_per_user home_locations) (loc home_locations).

Definition selected_columns (r : nat * VisitRow) : HomeRow :=
  mkHome (v_user_ID (snd r)) (v_GEOID (snd r)) (v_number_of_days (snd r))
         (v_visit_count (snd r)).

Fixpoint print_all (ms : list Msg) : M unit :=
  match ms with
  | [] => ret tt
  | m :: rest => print m ;;; print_all rest
  end.

Definition filter_home_locations (visit_counts : list (nat * VisitRow))
  : M (list HomeRow) :=
  let home_locations := qualifying visit_counts in
  print_all (map MsgNoHome (users_without_home_locations visit_counts)) ;;;
  home_locations <- lift (most_visited home_locations) ;;
  print (MsgHomeLocations home_locations) ;;;
  ret (map selected_columns home_locations).

(** *** save_results, run *)
Definition save_results (home_locations : list HomeRow) : M unit :=
  modify (set_output_file home_locations).

(** [run] on a CSV file that loads. *)
Definition run (csv : list Ping) (shp : list (Tract polygon)) : M unit :=
  load_data csv shp ;;;
  filter_night_time_data ;;;
  calculate_days_available ;;;
  joined <- spatial_join ;;
  visit_counts <- count_visits joined ;;
  home_locations <- filter_home_locations visit_counts ;;
  save_results home_locations.

(** [run] on any CSV file. *)
Definition run_checked (csv : list Ping) (shp : list (Tract polygon)) : M unit :=
  load_data_checked csv shp ;;;
  filter_night_time_data ;;;
  calculate_days_available ;;;
  joined <- spatial_join ;;
  visit_counts <- count_visits joined ;;
  home_locations <- filter_home_locations visit_counts ;;
  save_results home_locations.

(** The pipeline as a composition of the table functions, for reference in
    the statements below. *)
Definition pipeline_night (sh eh : Z) (csv : list Ping) : list Ping :=
  night_rows sh eh csv.
Definition pipeline_visit_counts (sh eh : Z) (csv : list Ping)
           (shp : list (Tract polygon)) : list (nat * VisitRow) :=
  let night := pipeline_night sh eh csv in
  visit_counts_table (sjoin_left_within night shp) (days_available_table night).
Definition pipeline_home (sh eh : Z) (csv : list Ping)
           (shp : list (Tract polygon)) : result (list HomeRow) :=
  rbind (most_visited (qualifying (pipeline_visit_counts sh eh csv shp)))
        (fun t => Ok (map selected_columns t)).

End HomeLocationIdentifier.

(* ================================================================== *)
(** ** Reference definitions used in the statements *)

(** The threshold policy as a function of the day count: the table for
    5..21 days, a ceiling of the number of weeks above, 0 below. *)
Definition min_visits_spec (d : Z) : Z :=
  if (5 <=? d) && (d <=? 9) then 2
  else if (10 <=? d) && (d <=? 14) then 3
  else if (15 <=? d) && (d <=? 21) then 4
  else if 21 <? d then (d + 6) / 7
  else 0.

(** The count stored for [(u, g)] in a [(user, zone, count)] table, 0 when
    the pair has no row. *)
Definition visit_count_of (u : Z) (g : string) (t : list (Z * string * Z)) : Z :=
  match find (fun row => key_eqb (fst row) (u, g)) t with
  | Some row => snd row
  | None => 0
  end.

(** The prints of the run that are per-user notices. *)
Definition notices (out : list Msg) : list Z :=
  flat_map (fun m => match m with MsgNoHome u => [u] | _ => [] end) out.

(** The night pings of user [u], and the coverage record they determine. *)
Definition user_rows (u : Z) (night : list Ping) : list Ping :=
  filter (fun p => user_ID p =? u) night.

Definition coverage_of (night : list Ping) (u : Z) : CoverageRow :=
  let d := nunique Z.eqb (map date (user_rows u night)) in
  mkCoverage u d (min_visits_spec d).

(** A group row of [count_visits] joined with its user's coverage record. *)
Definition visit_row (night : list Ping) (l : Z * string * Z) : VisitRow :=
  mkVisit (fst (fst l)) (snd (fst l)) (snd l)
          (Some (c_number_of_days (coverage_of night (fst (fst l)))))
          (Some (c_min_visits (coverage_of night (fst (fst l))))).

(** The sum of a column of counts, and the joined rows that have a tract. *)
Definition total (counts : list Z) : Z := fold_right Z.add 0 counts.

Definition has_tract (j : JoinedRow) : bool :=
  match j_GEOID j with Some _ => true | None => false end.

(** The sort key of a visit-count row. *)
Definition visit_key (r : nat * VisitRow) : Z * string :=
  (v_user_ID (snd r), v_GEOID (snd r)).

Definition visit_key_lt (a b : nat * VisitRow) : Prop :=
  cmp (visit_key a) (visit_key b) = Lt.

(** The grouping keys of [count_visits] and of [filter_home_locations]. *)
Definition joined_key (j : JoinedRow) : option (Z * string) :=
  option_map (fun g => (user_ID (j_ping j), g)) (j_GEOID j).

Definition user_key (r : nat * VisitRow) : option Z := Some (v_user_ID (snd r)).

(** The tracts whose polygon contains the ping, in shapefile order, and the
    rows the join produces for the ping. *)
Definition containing {polygon : Type} (within : Q -> Q -> polygon -> bool)
           (p : Ping) (shp : list (Tract polygon)) : list (Tract polygon) :=
  filter (fun z => within (orig_long p) (orig_lat p) (geometry z)) shp.

Definition joined_rows_of {polygon : Type} (within : Q -> Q -> polygon -> bool)
           (p : Ping) (shp : list (Tract polygon)) : list JoinedRow :=
  match containing within p shp with
  | [] => [mkJoined p None]
  | zs => map (fun z => mkJoined p (Some (GEOID z))) zs
  end.



(** The state after printing [ms]. *)
Definition log_to {polygon : Type} (s : Self polygon) (ms : list Msg)
  : Self polygon :=
  mkSelf (start_hour s) (end_hour s) (df s) (tracts s) (night_data s)
         (days_available s) (stdout s ++ ms) (output_file s).

(** [h] is the first row of [g] that attains the maximal visit count. *)
Definition first_max (g : list (nat * VisitRow)) (h : nat * VisitRow) : Prop :=
  exists s1 s2 : list (nat * VisitRow),
    g = s1 ++ h :: s2 /\
    (forall y, In y s1 -> v_visit_count (snd y) < v_visit_count (snd h)) /\
    (forall y, In y s2 -> v_visit_count (snd y) <= v_visit_count (snd h)).

(* ================================================================== *)
(** ** A concrete geometry and sample inputs *)

(** Axis-aligned boxes; a point is within a box when it lies strictly
    inside, as a point on the boundary of a polygon is not within it. *)
Record Box : Type := mkBox { x_lo : Q; y_lo : Q; x_hi : Q; y_hi : Q }.

Definition Qlt_bool (a b : Q) : bool := negb (Qle_bool b a).

Definition within_box (x y : Q) (b : Box) : bool :=
  Qlt_bool (x_lo b) x && Qlt_bool x (x_hi b) &&
  Qlt_bool (y_lo b) y && Qlt_bool y (y_hi b).

Definition tract_A : Tract Box := mkTract "A" (mkBox 0 0 10 10).
Definition tract_B : Tract Box := mkTract "B" (mkBox 5 5 20 20).

(** 1970-01-01 23:00:00, a point inside tract A only. *)
Definition ping_night_A : Ping := mkPing 1 82800 1 1.
(** 1970-01-01 23:30:00, a point inside both A and B. *)
Definition ping_night_AB : Ping := mkPing 1 84600 7 7.
(** 1970-01-02 02:00:00, a point inside no tract. *)
Definition ping_night_nowhere : Ping := mkPing 2 93600 100 100.
(** 1970-01-01 12:00:00, daytime. *)
Definition ping_day : Ping := mkPing 3 43200 1 1.
(** User 9 at 23:00 on five consecutive days, the first ping inside tract A
    and the others inside no tract. *)
Definition five_nights : list Ping :=
  [mkPing 9 82800 1 1; mkPing 9 169200 100 100; mkPing 9 255600 100 100;
   mkPing 9 342000 100 100; mkPing 9 428400 100 100].

(* ================================================================== *)
(** ** Laws of the key orderings *)

#[export] Instance Z_CompareLaws : CompareLaws Z.
Proof.
  split; unfold cmp, Z_Compare.
  - intros x y. apply Z.compare_eq_iff.
  - intros x y. apply Z.compare_antisym.
  - intros x y z. rewrite !Z.compare_lt_iff. lia.
Qed.

Lemma ascii_compare_refl (a : ascii) : Ascii.compare a a = Eq.
Proof. unfold Ascii.compare. apply N.compare_refl. Qed.

Lemma ascii_compare_lt_trans (a b c : ascii) :
  Ascii.compare a b = Lt -> Ascii.compare b c = Lt -> Ascii.compare a c = Lt.
Proof. unfold Ascii.compare. rewrite !N.compare_lt_iff. lia. Qed.

Lemma string_compare_refl (s : string) : String.compare s s = Eq.
Proof.
  induction s as [|a s IH]; simpl; [reflexivity|].
  now rewrite ascii_compare_refl.
Qed.

Lemma string_compare_lt_trans (s1 : string) :
  forall s2 s3, String.compare s1 s2 = Lt -> String.compare s2 s3 = Lt ->
                String.compare s1 s3 = Lt.
Proof.
  induction s1 as [|a s1 IH]; intros [|b s2] [|c s3]; simpl; try congruence.
  destruct (Ascii.compare a b) eqn:Hab; try discriminate;
    destruct (Ascii.compare b c) eqn:Hbc; try discriminate; intros H12 H23.
  - apply Ascii.compare_eq_iff in Hab, Hbc. subst.
    rewrite ascii_compare_refl. eauto.
  - apply Ascii.compare_eq_iff in Hab. subst. now rewrite Hbc.
  - apply Ascii.compare_eq_iff in Hbc. subst. now rewrite Hab.
  - now rewrite (ascii_compare_lt_trans _ _ _ Hab Hbc).
Qed.

#[export] Instance string_CompareLaws : CompareLaws string.
Proof.
  split; unfold cmp, string_Compare.
  - intros x y. split; [apply String.compare_eq_iff|].
    intros ->. apply string_compare_refl.
  - intros x y. apply String.compare_antisym.
  - intros x y z. apply string_compare_lt_trans.
Qed.

#[export] Instance pair_CompareLaws {A B : Type}
  `{CompareLaws A} `{CompareLaws B} : CompareLaws (A * B).
Proof.
  split; unfold cmp, pair_Compare.
  - intros [a b] [a' b']; simpl. split.
    + destruct (cmp a a') eqn:E; try discriminate.
      intros E'. apply cmp_eq in E, E'. now subst.
    + intros [= -> ->].
      rewrite (proj2 (cmp_eq a' a') eq_refl). now apply cmp_eq.
  - intros [a b] [a' b']; simpl.
    rewrite (cmp_antisym a a'). destruct (cmp a a'); simpl; auto.
    apply cmp_antisym.
  - intros [a b] [a' b'] [a'' b'']; simpl.
    destruct (cmp a a') eqn:E1; try discriminate;
      destruct (cmp a' a'') eqn:E2; try discriminate; intros L1 L2.
    + apply cmp_eq in E1, E2. subst.
      rewrite (proj2 (cmp_eq a'' a'') eq_refl). eapply cmp_lt_trans; eauto.
    + apply cmp_eq in E1. subst. now rewrite E2.
    + apply cmp_eq in E2. subst. now rewrite E1.
    + now rewrite (cmp_lt_trans _ _ _ E1 E2).
Qed.

Section OrderFacts.
Context {K : Type} `{CompareLaws K}.

Lemma cmp_refl (x : K) : cmp x x = Eq.
Proof. now apply cmp_eq. Qed.

Lemma cmp_gt_lt (x y : K) : cmp x y = Gt -> cmp y x = Lt.
Proof. intros E. rewrite cmp_antisym, E. reflexivity. Qed.

Lemma cmp_lt_neq (x y : K) : cmp x y = Lt -> x <> y.
Proof. intros E ->. rewrite cmp_refl in E. discriminate. Qed.

Lemma key_eqb_eq (x y : K) : key_eqb x y = true <-> x = y.
Proof.
  unfold key_eqb. rewrite <- cmp_eq.
  destruct (cmp x y); split; congruence.
Qed.

Lemma key_eqb_refl (x : K) : key_eqb x x = true.
Proof. now apply key_eqb_eq. Qed.

Lemma key_eqb_neq (x y : K) : key_eqb x y = false <-> x <> y.
Proof.
  rewrite <- key_eqb_eq. destruct (key_eqb x y); split; congruence.
Qed.
End OrderFacts.

(* ================================================================== *)
(** ** groupby: sorted keys, one group per key, rows in original order *)

Section GroupByFacts.
Context {K V : Type} `{CompareLaws K}.
Implicit Types (k : K) (v : V) (gs : list (K * list V)).

Lemma group_insert_keys k v gs x :
  In x (group_insert k v gs) ->
  fst x = k \/ exists y, In y gs /\ fst y = fst x.
Proof.
  induction gs as [|[k' vs] rest IH]; simpl.
  - intros [<-|[]]. now left.
  - destruct (cmp k k') eqn:E; simpl.
    + intros [<-|Hin]; right.
      * exists (k', vs). auto.
      * exists x. auto.
    + intros [<-|[<-|Hin]]; [now left| |]; right.
      * exists (k', vs). auto.
      * exists x. auto.
    + intros [<-|Hin].
      * right. exists (k', vs). auto.
      * destruct (IH Hin) as [?|(y & Hy & Hxy)]; [now left|].
        right. exists y. auto.
Qed.

Lemma group_insert_sorted k v gs :
  StronglySorted key_lt gs -> StronglySorted key_lt (group_insert k v gs).
Proof.
  induction 1 as [|[k' vs] rest Hs IH Hall]; simpl.
  - repeat constructor.
  - destruct (cmp k k') eqn:E.
    + constructor; auto.
    + constructor; [now constructor|].
      constructor; [exact E|].
      rewrite Forall_forall in *. intros y Hy.
      eapply cmp_lt_trans; [exact E|]. now apply Hall.
    + constructor; auto.
      rewrite Forall_forall in *. intros y Hy.
      destruct (group_insert_keys _ _ _ _ Hy) as [Hk|(z & Hz & Hzy)].
      * unfold key_lt. rewrite Hk. simpl. now apply cmp_gt_lt.
      * unfold key_lt. rewrite <- Hzy. now apply Hall.
Qed.

Lemma groupby_sorted (key : V -> option K) rows :
  StronglySorted key_lt (groupby key rows).
Proof.
  induction rows as [|r rows IH]; simpl; [constructor|].
  destruct (key r); auto using group_insert_sorted.
Qed.

Lemma group_of_above k gs :
  Forall (fun g => cmp k (fst g) = Lt) gs -> group_of k gs = [].
Proof.
  unfold group_of. induction 1 as [|g rest Hg _ IH]; simpl; [reflexivity|].
  replace (key_eqb (fst g) k) with false; [exact IH|].
  symmetry. apply key_eqb_neq. intros E.
  apply (cmp_lt_neq Hg). now symmetry.
Qed.

Lemma group_of_cons k0 k' (vs : list V) gs :
  group_of k0 ((k', vs) :: gs)
  = if key_eqb k' k0 then vs else group_of k0 gs.
Proof. unfold group_of. simpl. now destruct (key_eqb k' k0). Qed.

Lemma group_of_insert k0 k v gs :
  StronglySorted key_lt gs ->
  group_of k0 (group_insert k v gs)
  = if key_eqb k k0 then v :: group_of k0 gs else group_of k0 gs.
Proof.
  induction 1 as [|[k' vs] rest Hs IH Hall]; simpl.
  - rewrite group_of_cons. now destruct (key_eqb k k0).
  - destruct (cmp k k') eqn:E.
    + apply cmp_eq in E. subst k'. rewrite !group_of_cons.
      now destruct (key_eqb k k0).
    + rewrite (group_of_cons k0 k).
      destruct (key_eqb k k0) eqn:Ek; [|reflexivity].
      apply key_eqb_eq in Ek. subst k0. f_equal. symmetry.
      apply group_of_above. constructor; [exact E|].
      rewrite Forall_forall in *. intros y Hy.
      eapply cmp_lt_trans; [exact E|]. now apply Hall.
    + rewrite !group_of_cons.
      destruct (key_eqb k' k0) eqn:Ek'; [|exact IH].
      apply key_eqb_eq in Ek'. subst k0.
      replace (key_eqb k k') with false; [reflexivity|].
      symmetry. apply key_eqb_neq. intros E'.
      apply cmp_gt_lt in E. apply (cmp_lt_neq E). now symmetry.
Qed.

Lemma group_of_groupby (key : V -> option K) rows k :
  group_of k (groupby key rows) = filter (has_key key k) rows.
Proof.
  induction rows as [|r rows IH]; simpl; [reflexivity|].
  unfold has_key at 1. destruct (key r) as [k'|]; [|exact IH].
  rewrite group_of_insert by apply groupby_sorted.
  rewrite IH. reflexivity.
Qed.

Lemma group_insert_nonempty k v gs :
  Forall (fun g => snd g <> []) gs ->
  Forall (fun g => snd g <> []) (group_insert k v gs).
Proof.
  induction 1 as [|[k' vs] rest Hg Hrest IH]; simpl.
  - repeat constructor. discriminate.
  - destruct (cmp k k'); repeat constructor; simpl; auto; discriminate.
Qed.

Lemma groupby_nonempty (key : V -> option K) rows :
  Forall (fun g => snd g <> []) (groupby key rows).
Proof.
  induction rows as [|r rows IH]; simpl; [constructor|].
  destruct (key r); auto using group_insert_nonempty.
Qed.

Lemma sorted_group_of gs k (vs : list V) :
  StronglySorted key_lt gs -> In (k, vs) gs -> group_of k gs = vs.
Proof.
  induction 1 as [|g rest Hs IH Hall]; simpl; [tauto|].
  intros [->|Hin].
  - unfold group_of. simpl. now rewrite key_eqb_refl.
  - unfold group_of. simpl.
    replace (key_eqb (fst g) k) with false; [now apply IH|].
    symmetry. apply key_eqb_neq. intros Hk.
    rewrite Forall_forall in Hall. specialize (Hall _ Hin).
    exact (cmp_lt_neq Hall Hk).
Qed.

Lemma group_of_In gs k :
  group_of k gs <> [] -> In (k, group_of k gs) gs.
Proof.
  unfold group_of. destruct (find _ gs) as [[k' vs]|] eqn:E; [|congruence].
  intros _. apply find_some in E. destruct E as [Hin Hk].
  apply key_eqb_eq in Hk. simpl in *. now subst.
Qed.

(** The groups of [groupby] are exactly the non-empty key classes. *)
Lemma groupby_spec (key : V -> option K) rows k (vs : list V) :
  In (k, vs) (groupby key rows) <->
  vs = filter (has_key key k) rows /\ vs <> [].
Proof.
  split.
  - intros Hin. split.
    + rewrite <- group_of_groupby. symmetry.
      apply sorted_group_of; [apply groupby_sorted|exact Hin].
    + pose proof (groupby_nonempty key rows) as Hne.
      rewrite Forall_forall in Hne. exact (Hne _ Hin).
  - intros [-> Hne]. rewrite <- group_of_groupby in *.
    now apply group_of_In.
Qed.

Lemma sorted_keys_NoDup (A : Type) (l : list (K * A)) :
  StronglySorted key_lt l -> NoDup (map fst l).
Proof.
  induction 1 as [|g rest Hs IH Hall]; simpl; constructor; auto.
  rewrite in_map_iff. intros (y & Hy & Hin).
  rewrite Forall_forall in Hall. specialize (Hall _ Hin).
  apply (cmp_lt_neq Hall). now symmetry.
Qed.

End GroupByFacts.

(* ================================================================== *)
(** ** unique, merge and label lookups *)

Lemma unique_In (l : list Z) (x : Z) : In x (unique Z.eqb l) <-> In x l.
Proof.
  induction l as [|a l IH]; simpl; [tauto|].
  rewrite filter_In, IH, negb_true_iff, Z.eqb_neq.
  destruct (Z.eq_dec a x); intuition congruence.
Qed.

Lemma unique_NoDup (l : list Z) : NoDup (unique Z.eqb l).
Proof.
  induction l as [|a l IH]; simpl; constructor.
  - rewrite filter_In, negb_true_iff, Z.eqb_neq. tauto.
  - now apply NoDup_filter.
Qed.

Lemma merge_left_In {L R O : Type} (on : L -> R -> bool)
      (row : L -> option R -> O) (left : list L) (right : list R) (o : O) :
  In o (merge_left on row left right) <->
  exists l, In l left /\
            ((filter (on l) right = [] /\ o = row l None) \/
             (exists r, In r right /\ on l r = true /\ o = row l (Some r))).
Proof.
  unfold merge_left. rewrite in_flat_map. split.
  - intros (l & Hl & Ho). exists l. split; [exact Hl|].
    destruct (filter (on l) right) as [|r0 rs] eqn:E.
    + destruct Ho as [<-|[]]. now left.
    + right. rewrite <- E, in_map_iff in Ho. destruct Ho as (r & <- & Hr).
      apply filter_In in Hr. exists r. tauto.
  - intros (l & Hl & Hcase). exists l. split; [exact Hl|].
    destruct Hcase as [[E ->]|(r & Hr & Hon & ->)].
    + rewrite E. now left.
    + assert (Hin : In r (filter (on l) right)) by (apply filter_In; tauto).
      destruct (filter (on l) right) as [|r0 rs]; [destruct Hin|].
      apply in_map_iff. exists r. tauto.
Qed.

(** A left row with exactly one partner contributes exactly one row. *)
Lemma merge_left_one_to_one {L R O : Type} (on : L -> R -> bool)
      (row : L -> option R -> O) (partner : L -> R)
      (left : list L) (right : list R) :
  (forall l, In l left -> filter (on l) right = [partner l]) ->
  merge_left on row left right = map (fun l => row l (Some (partner l))) left.
Proof.
  unfold merge_left. induction left as [|l rest IH]; simpl; intros Hone;
    [reflexivity|].
  rewrite (Hone l) by now left. simpl. f_equal. apply IH.
  intros l' Hl'. apply Hone. now right.
Qed.

Lemma filter_none {A : Type} (f : A -> bool) (l : list A) :
  (forall b, In b l -> f b = false) -> filter f l = [].
Proof.
  induction l as [|a l IH]; simpl; intros Hf; [reflexivity|].
  rewrite (Hf a) by now left. apply IH. intros b Hb. apply Hf. now right.
Qed.

Lemma filter_unique_key {A : Type} (f : A -> Z) (l : list A) (a : A) :
  NoDup (map f l) -> In a l -> filter (fun b => f a =? f b) l = [a].
Proof.
  induction l as [|b l IH]; simpl; [tauto|].
  intros Hnd Hin. inversion Hnd as [|? ? Hnotin Hnd']; subst.
  destruct Hin as [->|Hin].
  - rewrite Z.eqb_refl. f_equal.
    apply filter_none. intros b Hb.
    apply Z.eqb_neq. intros E. apply Hnotin. rewrite E. now apply in_map.
  - replace (f a =? f b) with false; [now apply IH|].
    symmetry. apply Z.eqb_neq. intros E. apply Hnotin. rewrite <- E.
    now apply in_map.
Qed.

Lemma range_index_snd {A : Type} (rows : list A) :
  map snd (range_index rows) = rows.
Proof.
  unfold range_index. generalize 0%nat.
  induction rows as [|a rows IH]; intros n; simpl; [reflexivity|].
  now rewrite IH.
Qed.

Lemma range_index_fst {A : Type} (rows : list A) :
  map fst (range_index rows) = seq 0 (length rows).
Proof.
  unfold range_index. generalize 0%nat.
  induction rows as [|a rows IH]; intros n; simpl; [reflexivity|].
  now rewrite IH.
Qed.

Lemma range_index_NoDup {A : Type} (rows : list A) :
  NoDup (map fst (range_index rows)).
Proof. rewrite range_index_fst. apply seq_NoDup. Qed.

(* ================================================================== *)
(** ** Night window *)

Lemma night_mask_spec (sh eh h : Z) :
  night_mask sh eh h = true <->
  (sh < eh -> sh <= h < eh) /\ (sh >= eh -> h >= sh \/ h < eh).
Proof.
  unfold night_mask.
  destruct (Z.ltb_spec sh eh);
    [rewrite andb_true_iff | rewrite orb_true_iff];
    rewrite Z.leb_le, Z.ltb_lt; intuition lia.
Qed.

(** C3: a ping is kept as a night ping exactly when its hour lies in
    [start, end) for start < end, and in [start, 24) or [0, end) otherwise;
    with the window (22, 6) the hours 23 and 5 are night, 6 and 21 are day. *)
Theorem night_window_classification :
  (forall (sh eh : Z) (rows : list Ping) (p : Ping),
      In p (night_rows sh eh rows) <->
      In p rows /\
      (sh < eh -> sh <= hour p < eh) /\
      (sh >= eh -> hour p >= sh \/ hour p < eh)) /\
  night_mask 22 6 23 = true /\ night_mask 22 6 5 = true /\
  night_mask 22 6 6 = false /\ night_mask 22 6 21 = false.
Proof.
  split; [|repeat split; reflexivity].
  intros sh eh rows p. unfold night_rows.
  rewrite filter_In, night_mask_spec. reflexivity.
Qed.

Lemma hour_range (p : Ping) : 0 <= hour p < 24.
Proof. unfold hour. apply Z.mod_pos_bound. lia. Qed.

(* ================================================================== *)
(** ** Threshold policy *)

Lemma ceil_div7_eq (d : Z) : ceil_div7 d = (d + 6) / 7.
Proof.
  unfold ceil_div7.
  pose proof (Z.div_mod (- d) 7 ltac:(lia)) as Hdm.
  pose proof (Z.mod_pos_bound (- d) 7 ltac:(lia)) as Hr.
  apply Z.div_unique with (r := 6 - (- d) mod 7); lia.
Qed.

Lemma min_visits_table_lookup (d : Z) :
  filter (fun r : Z * Z => d =? fst r) min_visits_table
  = if (5 <=? d) && (d <=? 21) then [(d, min_visits_spec d)] else [].
Proof.
  destruct (Z.leb_spec 5 d) as [H5|H5]; simpl andb.
  - destruct (Z.leb_spec d 21) as [H21|H21].
    + assert (Hd : d = 5 \/ d = 6 \/ d = 7 \/ d = 8 \/ d = 9 \/ d = 10 \/
                   d = 11 \/ d = 12 \/ d = 13 \/ d = 14 \/ d = 15 \/ d = 16 \/
                   d = 17 \/ d = 18 \/ d = 19 \/ d = 20 \/ d = 21) by lia.
      repeat (destruct Hd as [->|Hd]; [reflexivity|]). subst. reflexivity.
    + apply filter_none. intros [k v] Hin. apply Z.eqb_neq. simpl.
      assert (Hk : 5 <= k <= 21); [|lia].
      unfold min_visits_table in Hin. simpl in Hin.
      repeat (destruct Hin as [[= <- <-]|Hin]; [lia|]). destruct Hin.
  - apply filter_none. intros [k v] Hin. apply Z.eqb_neq. simpl.
    assert (Hk : 5 <= k <= 21); [|lia].
    unfold min_visits_table in Hin. simpl in Hin.
    repeat (destruct Hin as [[= <- <-]|Hin]; [lia|]). destruct Hin.
Qed.

Lemma with_table_cons (u d : Z) (days : list (Z * Z)) :
  with_table ((u, d) :: days)
  = (u, d, if (5 <=? d) && (d <=? 21) then Some (min_visits_spec d) else None)
      :: with_table days.
Proof.
  unfold with_table, merge_left. cbn [flat_map fst snd].
  rewrite min_visits_table_lookup.
  now destruct ((5 <=? d) && (d <=? 21)).
Qed.

Ltac decide_bounds :=
  repeat match goal with
         | |- context [?a <=? ?b] => destruct (Z.leb_spec a b); try lia
         | |- context [?a <? ?b] => destruct (Z.ltb_spec a b); try lia
         end.

Lemma assign_min_visits_cons (u d : Z) (days : list (Z * Z)) :
  assign_min_visits ((u, d) :: days)
  = mkCoverage u d (min_visits_spec d) :: assign_min_visits days.
Proof.
  unfold assign_min_visits. rewrite with_table_cons. cbn [map fst snd].
  f_equal. f_equal. unfold apply_formula.
  destruct (Z.ltb_spec 21 d) as [Hd|Hd].
  - cbn [fillna0]. rewrite ceil_div7_eq. unfold min_visits_spec.
    decide_bounds; reflexivity.
  - destruct (Z.leb_spec 5 d); cbn [andb fillna0].
    + destruct (Z.leb_spec d 21); [reflexivity|lia].
    + unfold min_visits_spec. decide_bounds; reflexivity.
Qed.

Lemma assign_min_visits_map (days : list (Z * Z)) :
  assign_min_visits days
  = map (fun ud => mkCoverage (fst ud) (snd ud) (min_visits_spec (snd ud))) days.
Proof.
  induction days as [|[u d] days IH]; [reflexivity|].
  rewrite assign_min_visits_cons, IH. reflexivity.
Qed.

(** C2: every row of the coverage table gets the piecewise threshold of its
    day count: 2 for 5..9 days, 3 for 10..14, 4 for 15..21, the ceiling of
    days/7 above 21 (so 21 and 22 give 4, 30 gives 5) and the integer 0
    below 5; no row is lost or left without a value. *)
Theorem min_visits_piecewise :
  (forall days : list (Z * Z),
      assign_min_visits days
      = map (fun ud => mkCoverage (fst ud) (snd ud) (min_visits_spec (snd ud)))
            days) /\
  (forall d, (5 <= d <= 9 -> min_visits_spec d = 2) /\
             (10 <= d <= 14 -> min_visits_spec d = 3) /\
             (15 <= d <= 21 -> min_visits_spec d = 4) /\
             (21 < d -> 7 * (min_visits_spec d - 1) < d <= 7 * min_visits_spec d) /\
             (d < 5 -> min_visits_spec d = 0)) /\
  assign_min_visits [(1, 21); (2, 22); (3, 30)]
  = [mkCoverage 1 21 4; mkCoverage 2 22 4; mkCoverage 3 30 5].
Proof.
  split; [exact assign_min_visits_map|]. split; [|reflexivity].
  intros d. unfold min_visits_spec.
  repeat split; intros; decide_bounds; try reflexivity; cbn [andb];
    pose proof (Z.div_mod (d + 6) 7 ltac:(lia));
    pose proof (Z.mod_pos_bound (d + 6) 7 ltac:(lia)); lia.
Qed.

(* ================================================================== *)
(** ** Coverage: distinct calendar dates per user *)

Lemma key_eqb_Z (x y : Z) : key_eqb x y = (x =? y).
Proof.
  unfold key_eqb, cmp, Z_Compare.
  destruct (Z.compare_spec x y), (Z.eqb_spec x y); try reflexivity; lia.
Qed.

Lemma NoDup_map_inj {A B : Type} (f : A -> B) (l : list A) (a b : A) :
  NoDup (map f l) -> In a l -> In b l -> f a = f b -> a = b.
Proof.
  induction l as [|x l IH]; simpl; [tauto|].
  intros Hnd Ha Hb E. inversion Hnd as [|? ? Hnotin Hnd']; subst.
  destruct Ha as [->|Ha], Hb as [->|Hb]; auto.
  - exfalso. apply Hnotin. rewrite E. now apply in_map.
  - exfalso. apply Hnotin. rewrite <- E. now apply in_map.
Qed.

Lemma user_group (night : list Ping) (u : Z) :
  filter (has_key (fun p => Some (user_ID p)) u) night = user_rows u night.
Proof.
  apply filter_ext. intros p. unfold has_key. apply key_eqb_Z.
Qed.

Lemma days_per_user_In (night : list Ping) (u n : Z) :
  In (u, n) (days_per_user night) <->
  user_rows u night <> [] /\
  n = nunique Z.eqb (map date (user_rows u night)).
Proof.
  unfold days_per_user. rewrite in_map_iff. split.
  - intros ([k vs] & E & Hin). simpl in E. injection E as Hk Hn. subst k n.
    apply groupby_spec in Hin. rewrite user_group in Hin.
    destruct Hin as [-> Hne]. auto.
  - intros [Hne ->]. exists (u, user_rows u night). split; [reflexivity|].
    apply groupby_spec. rewrite user_group. auto.
Qed.

Lemma days_per_user_NoDup (night : list Ping) :
  NoDup (map fst (days_per_user night)).
Proof.
  unfold days_per_user. rewrite map_map. simpl.
  apply sorted_keys_NoDup. apply groupby_sorted.
Qed.

Lemma days_available_users (night : list Ping) :
  map c_user_ID (days_available_table night) = map fst (days_per_user night).
Proof.
  unfold days_available_table. rewrite assign_min_visits_map, map_map.
  reflexivity.
Qed.

Lemma days_available_In (night : list Ping) (c : CoverageRow) :
  In c (days_available_table night) <->
  user_rows (c_user_ID c) night <> [] /\
  c_number_of_days c = nunique Z.eqb (map date (user_rows (c_user_ID c) night)) /\
  c_min_visits c = min_visits_spec (c_number_of_days c).
Proof.
  unfold days_available_table. rewrite assign_min_visits_map, in_map_iff. split.
  - intros ([u n] & <- & Hin). apply days_per_user_In in Hin. simpl. tauto.
  - intros (Hne & Hn & Hm). exists (c_user_ID c, c_number_of_days c). split.
    + destruct c; simpl in *. now subst.
    + apply days_per_user_In. tauto.
Qed.

Lemma user_rows_nonempty (u : Z) (night : list Ping) :
  user_rows u night <> [] <-> exists p, In p night /\ user_ID p = u.
Proof.
  unfold user_rows. split.
  - destruct (filter _ night) as [|p rest] eqn:E; [congruence|]. intros _.
    assert (Hin : In p (filter (fun p => user_ID p =? u) night))
      by (rewrite E; now left).
    apply filter_In in Hin. exists p. rewrite <- Z.eqb_eq. exact Hin.
  - intros (p & Hin & Hu) E.
    assert (Hp : In p (filter (fun p => user_ID p =? u) night))
      by (apply filter_In; rewrite Z.eqb_eq; tauto).
    rewrite E in Hp. destruct Hp.
Qed.

(** The dates counted for [u]: duplicate-free, and exactly the dates of
    [u]'s night pings. *)
Lemma counted_dates (night : list Ping) (u : Z) :
  let dates := unique Z.eqb (map date (user_rows u night)) in
  NoDup dates /\
  (forall d, In d dates <-> exists p, In p night /\ user_ID p = u /\ date p = d) /\
  nunique Z.eqb (map date (user_rows u night)) = Z.of_nat (length dates).
Proof.
  simpl. split; [apply unique_NoDup|]. split; [|reflexivity].
  intros d. rewrite unique_In, in_map_iff. unfold user_rows. split.
  - intros (p & Hd & Hin). apply filter_In in Hin. rewrite Z.eqb_eq in Hin.
    exists p. tauto.
  - intros (p & Hin & Hu & Hd). exists p. split; [exact Hd|].
    apply filter_In. rewrite Z.eqb_eq. tauto.
Qed.

(** C4: a user has a coverage record exactly when the user has a night
    ping, has at most one, and its number_of_days is the number of distinct
    calendar dates among the user's night pings; a further ping on a date
    already seen changes no record. *)
Theorem coverage_counts_distinct_dates :
  forall (night : list Ping) (u : Z),
    (forall c, In c (days_available_table night) -> c_user_ID c = u ->
       exists dates : list Z,
         NoDup dates /\
         (forall d, In d dates <->
                    exists p, In p night /\ user_ID p = u /\ date p = d) /\
         c_number_of_days c = Z.of_nat (length dates)) /\
    ((exists c, In c (days_available_table night) /\ c_user_ID c = u) <->
     (exists p, In p night /\ user_ID p = u)) /\
    (forall c c', In c (days_available_table night) ->
                  In c' (days_available_table night) ->
                  c_user_ID c = c_user_ID c' -> c = c') /\
    (forall p q, In q night -> user_ID q = user_ID p -> date q = date p ->
       forall c, In c (days_available_table (p :: night)) <->
                 In c (days_available_table night)).
Proof.
  intros night u. split; [|split; [|split]].
  - intros c Hc Hu. apply days_available_In in Hc. destruct Hc as (_ & Hn & _).
    rewrite Hu in Hn.
    destruct (counted_dates night u) as (Hnd & Hmem & Hlen).
    eexists. split; [exact Hnd|]. split; [exact Hmem|]. now rewrite Hn.
  - split.
    + intros (c & Hc & Hu). apply days_available_In in Hc.
      rewrite Hu in Hc. now apply user_rows_nonempty.
    + intros Hp. apply user_rows_nonempty in Hp.
      exists (mkCoverage u (nunique Z.eqb (map date (user_rows u night)))
                (min_visits_spec (nunique Z.eqb (map date (user_rows u night))))).
      split; [|reflexivity]. apply days_available_In. simpl. tauto.
  - intros c c' Hc Hc' E.
    eapply NoDup_map_inj with (f := c_user_ID); eauto.
    rewrite days_available_users. apply days_per_user_NoDup.
  - intros p q Hq Hu Hd c.
    assert (Hsame : forall v,
               Z.of_nat (length (unique Z.eqb (map date (user_rows v (p :: night)))))
               = Z.of_nat (length (unique Z.eqb (map date (user_rows v night))))).
    { intros v. f_equal. apply Permutation_length.
      apply NoDup_Permutation; try apply unique_NoDup.
      intros d.
      pose proof (counted_dates (p :: night) v) as (_ & H1 & _).
      pose proof (counted_dates night v) as (_ & H2 & _).
      simpl in H1, H2. rewrite H1, H2. split.
      - intros (x & [<-|Hx] & Hxu & Hxd).
        + exists q. repeat split; congruence.
        + exists x. tauto.
      - intros (x & Hx & Hxu & Hxd). exists x. simpl. tauto. }
    rewrite !days_available_In. unfold nunique. rewrite Hsame.
    rewrite !user_rows_nonempty. split.
    + intros ((x & [<-|Hx] & Hxu) & Hrest); split; try exact Hrest.
      * exists q. split; congruence.
      * exists x. tauto.
    + intros ((x & Hx & Hxu) & Hrest); split; try exact Hrest.
      exists x. simpl. tauto.
Qed.

(* ================================================================== *)
(** ** idxmax and loc *)

Lemma argmax_from_spec (s : list (nat * Z)) :
  forall best, exists s1 x s2,
      best :: s = s1 ++ x :: s2 /\
      argmax_from best s = fst x /\
      (forall y, In y s1 -> snd y < snd x) /\
      (forall y, In y s2 -> snd y <= snd x).
Proof.
  induction s as [|r rest IH]; intros best; simpl.
  - exists [], best, []. simpl. repeat split; intros y [].
  - destruct (Z.ltb_spec (snd best) (snd r)) as [Hlt|Hge].
    + destruct (IH r) as (s1 & x & s2 & E & Harg & H1 & H2).
      exists (best :: s1), x, s2. simpl. rewrite E.
      split; [reflexivity|]. split; [exact Harg|]. split; [|exact H2].
      intros y [<-|Hy]; [|now apply H1].
      destruct s1 as [|r' s1']; simpl in E; injection E as E0 E'.
      * rewrite <- E0. exact Hlt.
      * specialize (H1 r' (or_introl eq_refl)). rewrite <- E0 in H1. lia.
    + destruct (IH best) as (s1 & x & s2 & E & Harg & H1 & H2).
      destruct s1 as [|b s1']; simpl in E; injection E as E0 E'.
      * exists [], x, (r :: rest). simpl. subst rest best.
        split; [reflexivity|]. split; [exact Harg|]. split; [intros y []|].
        intros y [<-|Hy]; [exact Hge|now apply H2].
      * exists (best :: r :: s1'), x, s2. simpl. subst rest b.
        split; [reflexivity|]. split; [exact Harg|]. split; [|exact H2].
        pose proof (H1 best (or_introl eq_refl)).
        intros y [<-|[<-|Hy]]; [assumption|lia|].
        apply H1. now right.
Qed.

Lemma idxmax_first_max (g : list (nat * VisitRow)) :
  g <> [] ->
  exists h, idxmax (map (fun r => (fst r, v_visit_count (snd r))) g) = Ok (fst h)
            /\ first_max g h.
Proof.
  destruct g as [|r rest]; [congruence|]. intros _. simpl.
  destruct (argmax_from_spec
              (map (fun r => (fst r, v_visit_count (snd r))) rest)
              (fst r, v_visit_count (snd r)))
    as (s1 & x & s2 & E & Harg & H1 & H2).
  change ((fst r, v_visit_count (snd r))
            :: map (fun r => (fst r, v_visit_count (snd r))) rest)
    with (map (fun r : nat * VisitRow => (fst r, v_visit_count (snd r)))
              (r :: rest)) in E.
  apply map_eq_app in E. destruct E as (g1 & g2' & Eg & E1 & E2).
  apply map_eq_cons in E2. destruct E2 as (h & g2 & -> & Eh & E2).
  exists h. split.
  - rewrite Harg, <- Eh. reflexivity.
  - exists g1, g2. split; [exact Eg|]. subst s1 s2 x. simpl in *. split.
    + intros y Hy. apply (H1 (fst y, v_visit_count (snd y))).
      apply in_map_iff. now exists y.
    + intros y Hy. apply (H2 (fst y, v_visit_count (snd y))).
      apply in_map_iff. now exists y.
Qed.

Lemma filter_unique_label {A : Type} (frame : list (nat * A)) (h : nat * A) :
  NoDup (map fst frame) -> In h frame ->
  filter (fun r => Nat.eqb (fst r) (fst h)) frame = [h].
Proof.
  induction frame as [|b l IH]; simpl; [tauto|].
  intros Hnd Hin. inversion Hnd as [|? ? Hnotin Hnd']; subst.
  destruct Hin as [->|Hin].
  - rewrite Nat.eqb_refl. f_equal.
    apply filter_none. intros b Hb.
    apply Nat.eqb_neq. intros E. apply Hnotin. rewrite <- E. now apply in_map.
  - replace (Nat.eqb (fst b) (fst h)) with false; [now apply IH|].
    symmetry. apply Nat.eqb_neq. intros E. apply Hnotin. rewrite E.
    now apply in_map.
Qed.

Lemma loc_cons {A : Type} (frame : list (nat * A)) (h : nat * A)
      (labels : list nat) (rest : list (nat * A)) :
  NoDup (map fst frame) -> In h frame ->
  loc frame labels = Ok rest ->
  loc frame (fst h :: labels) = Ok (h :: rest).
Proof.
  intros Hnd Hin. unfold loc. simpl.
  rewrite (filter_unique_label frame h Hnd Hin). simpl.
  destruct (rmap _ labels) as [chunks|e]; simpl; [|discriminate].
  now intros [= <-].
Qed.

Lemma Forall2_In_l {A B : Type} (R : A -> B -> Prop) (l : list A) (l' : list B) :
  Forall2 R l l' -> forall a, In a l -> exists b, In b l' /\ R a b.
Proof.
  induction 1 as [|x y l l' Hxy _ IH]; simpl; [tauto|].
  intros a [<-|Ha]; [exists y; auto|].
  destruct (IH a Ha) as (b & Hb & Hab). exists b. auto.
Qed.

Lemma Forall2_In_r {A B : Type} (R : A -> B -> Prop) (l : list A) (l' : list B) :
  Forall2 R l l' -> forall b, In b l' -> exists a, In a l /\ R a b.
Proof.
  induction 1 as [|x y l l' Hxy _ IH]; simpl; [tauto|].
  intros b [<-|Hb]; [exists x; auto|].
  destruct (IH b Hb) as (a & Ha & Hab). exists a. auto.
Qed.

Lemma Forall2_map_eq {A B C : Type} (R : A -> B -> Prop)
      (f : A -> C) (g : B -> C) (l : list A) (l' : list B) :
  Forall2 R l l' -> (forall a b, In a l -> R a b -> f a = g b) ->
  map f l = map g l'.
Proof.
  induction 1 as [|x y l l' Hxy _ IH]; simpl; intros Hfg; [reflexivity|].
  f_equal; [apply Hfg; auto|]. apply IH. intros a b Ha. apply Hfg. now right.
Qed.

Lemma first_max_In (g : list (nat * VisitRow)) (h : nat * VisitRow) :
  first_max g h -> In h g.
Proof.
  intros (s1 & s2 & -> & _). apply in_elt.
Qed.

(** Picking the first maximum of every group never raises. *)
Lemma pick_groups (hl : list (nat * VisitRow))
      (gs : list (Z * list (nat * VisitRow))) :
  NoDup (map fst hl) ->
  Forall (fun g => snd g <> [] /\ incl (snd g) hl) gs ->
  exists labels picks,
    rmap (fun g => idxmax (map (fun r => (fst r, v_visit_count (snd r))) (snd g)))
         gs = Ok labels /\
    loc hl labels = Ok picks /\
    Forall2 (fun g h => first_max (snd g) h) gs picks.
Proof.
  intros Hnd. induction 1 as [|g gs [Hne Hincl] _ IH].
  - exists [], []. repeat split. constructor.
  - destruct IH as (labels & picks & Hlab & Hloc & Hall).
    destruct (idxmax_first_max Hne) as (h & Hidx & Hmax).
    exists (fst h :: labels), (h :: picks). split; [|split].
    + simpl. rewrite Hidx. simpl. rewrite Hlab. reflexivity.
    + apply loc_cons; auto. apply Hincl. now apply first_max_In.
    + now constructor.
Qed.

(* ================================================================== *)
(** ** Selecting the most visited qualifying tract *)

Lemma filter_decompose {A : Type} (f : A -> bool) (l : list A) :
  forall s1 x s2,
    filter f l = s1 ++ x :: s2 ->
    exists l1 l2, l = l1 ++ x :: l2 /\ filter f l1 = s1 /\ filter f l2 = s2.
Proof.
  induction l as [|a l IH]; intros s1 x s2; simpl.
  - destruct s1; discriminate.
  - destruct (f a) eqn:Fa.
    + destruct s1 as [|a' s1']; simpl; intros [= -> E].
      * exists [], l. auto.
      * destruct (IH _ _ _ E) as (l1 & l2 & -> & E1 & E2).
        exists (a' :: l1), l2. simpl. rewrite Fa, E1. auto.
    + intros E. destruct (IH _ _ _ E) as (l1 & l2 & -> & E1 & E2).
      exists (a :: l1), l2. simpl. rewrite Fa. auto.
Qed.

Lemma qualifying_labels_NoDup (vc : list (nat * VisitRow)) :
  NoDup (map fst vc) -> NoDup (map fst (qualifying vc)).
Proof.
  unfold qualifying. induction vc as [|r vc IH]; simpl; [auto|].
  intros Hnd. inversion Hnd as [|? ? Hfresh Hnd']; subst.
  destruct (meets_min_visits (snd r)); simpl; auto. constructor; auto.
  intros Hin. apply Hfresh. apply in_map_iff in Hin.
  destruct Hin as (x & Hx & Hin). apply filter_In in Hin.
  rewrite <- Hx. apply in_map. tauto.
Qed.

Lemma has_user_key (u : Z) (r : nat * VisitRow) :
  has_key user_key u r = true <-> v_user_ID (snd r) = u.
Proof. unfold has_key, user_key. now rewrite key_eqb_Z, Z.eqb_eq. Qed.

(** What [most_visited] returns on the qualifying rows of a frame with
    distinct labels: one row per user that has a qualifying row, and that
    row is the first of the user's qualifying rows with the largest count. *)
Lemma most_visited_spec (vc : list (nat * VisitRow)) :
  NoDup (map fst vc) ->
  exists picks,
    most_visited (qualifying vc) = Ok picks /\
    NoDup (map (fun h => v_user_ID (snd h)) picks) /\
    (forall h, In h picks ->
       meets_min_visits (snd h) = true /\
       exists l1 l2,
         vc = l1 ++ h :: l2 /\
         (forall y, In y l1 -> v_user_ID (snd y) = v_user_ID (snd h) ->
                    meets_min_visits (snd y) = true ->
                    v_visit_count (snd y) < v_visit_count (snd h)) /\
         (forall y, In y l2 -> v_user_ID (snd y) = v_user_ID (snd h) ->
                    meets_min_visits (snd y) = true ->
                    v_visit_count (snd y) <= v_visit_count (snd h))) /\
    (forall r, In r vc -> meets_min_visits (snd r) = true ->
       exists h, In h picks /\ v_user_ID (snd h) = v_user_ID (snd r)).
Proof.
  intros Hnd.
  set (hl := qualifying vc).
  assert (Hgroups : forall g, In g (groupby user_key hl) ->
                      snd g = filter (has_key user_key (fst g)) hl /\ snd g <> []).
  { intros [k vs] Hg. now apply groupby_spec in Hg. }
  destruct (@pick_groups hl (groupby user_key hl)) as (labels & picks & Hlab & Hloc & Hall).
  { now apply qualifying_labels_NoDup. }
  { apply Forall_forall. intros g Hg. destruct (Hgroups g Hg) as [E Hne].
    split; [exact Hne|]. rewrite E. intros x Hx. apply filter_In in Hx. tauto. }
  assert (Hin_group : forall g h, In g (groupby user_key hl) ->
                        first_max (snd g) h ->
                        In h hl /\ v_user_ID (snd h) = fst g).
  { intros g h Hg Hmax. apply first_max_In in Hmax.
    rewrite (proj1 (Hgroups g Hg)) in Hmax. apply filter_In in Hmax.
    now rewrite has_user_key in Hmax. }
  exists picks. split; [|split; [|split]].
  - unfold most_visited, idxmax_per_user. fold hl.
    change (fun r : nat * VisitRow => Some (v_user_ID (snd r))) with user_key.
    rewrite Hlab. exact Hloc.
  - rewrite <- (@Forall2_map_eq _ _ _ _ fst (fun h => v_user_ID (snd h)) _ _ Hall).
    + apply sorted_keys_NoDup. apply groupby_sorted.
    + intros g h Hg Hmax. symmetry. now apply Hin_group.
  - intros h Hh.
    destruct (Forall2_In_r Hall h Hh) as (g & Hg & Hmax).
    destruct (Hin_group g h Hg Hmax) as [Hhl Hu].
    split; [apply filter_In in Hhl; tauto|].
    destruct Hmax as (s1 & s2 & E & H1 & H2).
    rewrite (proj1 (Hgroups g Hg)) in E.
    apply filter_decompose in E. destruct E as (m1 & m2 & Em & <- & <-).
    unfold hl, qualifying in Em.
    apply filter_decompose in Em. destruct Em as (l1 & l2 & -> & <- & <-).
    exists l1, l2. split; [reflexivity|]. split.
    + intros y Hy Hyu Hym. apply H1. apply filter_In. split.
      * apply filter_In. tauto.
      * apply has_user_key. congruence.
    + intros y Hy Hyu Hym. apply H2. apply filter_In. split.
      * apply filter_In. tauto.
      * apply has_user_key. congruence.
  - intros r Hr Hm.
    assert (Hrl : In r hl) by (apply filter_In; tauto).
    assert (Hg : In (v_user_ID (snd r),
                     filter (has_key user_key (v_user_ID (snd r))) hl)
                    (groupby user_key hl)).
    { apply groupby_spec. split; [reflexivity|]. intros E.
      assert (Hx : In r (filter (has_key user_key (v_user_ID (snd r))) hl))
        by (apply filter_In; split; [exact Hrl|now apply has_user_key]).
      rewrite E in Hx. destruct Hx. }
    destruct (Forall2_In_l Hall _ Hg) as (h & Hh & Hmax).
    exists h. split; [exact Hh|].
    now destruct (Hin_group _ h Hg Hmax).
Qed.

(* ================================================================== *)
(** ** Running the methods *)

Section RunFacts.
Variable polygon : Type.
Variable within : Q -> Q -> polygon -> bool.
Implicit Types (s : Self polygon).

Lemma log_to_nil s : log_to s [] = s.
Proof. destruct s. unfold log_to. simpl. now rewrite app_nil_r. Qed.

Lemma log_to_app s (ms ms' : list Msg) :
  log_to (log_to s ms) ms' = log_to s (ms ++ ms').
Proof. unfold log_to. simpl. now rewrite app_assoc. Qed.

Lemma print_run (m : Msg) s : print m s = Ok (tt, log_to s [m]).
Proof. reflexivity. Qed.

Lemma print_all_run (ms : list Msg) : forall s,
    print_all ms s = Ok (tt, log_to s ms).
Proof.
  induction ms as [|m ms IH]; intros s; simpl.
  - unfold ret. now rewrite log_to_nil.
  - unfold bind. rewrite print_run, IH, log_to_app. reflexivity.
Qed.

Lemma notices_app (a b : list Msg) : notices (a ++ b) = notices a ++ notices b.
Proof. unfold notices. apply flat_map_app. Qed.

Lemma notices_NoHome (us : list Z) : notices (map MsgNoHome us) = us.
Proof.
  induction us as [|u us IH]; simpl; [reflexivity|]. now rewrite IH.
Qed.

(** [filter_home_locations] returns the selected columns of the picked
    rows, after printing one notice per user without a qualifying row and
    then the picked rows. *)
Lemma filter_home_locations_run (vc picks : list (nat * VisitRow)) s :
  most_visited (qualifying vc) = Ok picks ->
  filter_home_locations vc s
  = Ok (map selected_columns picks,
        log_to s (map MsgNoHome (users_without_home_locations vc)
                      ++ [MsgHomeLocations picks])).
Proof.
  intros Hpick. unfold filter_home_locations, bind.
  rewrite print_all_run. unfold lift. rewrite Hpick, print_run.
  unfold ret. now rewrite log_to_app.
Qed.

Lemma filter_home_locations_raises (vc : list (nat * VisitRow)) s e :
  most_visited (qualifying vc) = Raise e ->
  filter_home_locations vc s = Raise e.
Proof.
  intros Hpick. unfold filter_home_locations, bind.
  rewrite print_all_run. unfold lift. now rewrite Hpick.
Qed.

(** The whole run from a fresh instance, once the selection succeeds. *)
Lemma run_steps (sh eh : Z) (csv : list Ping) (shp : list (Tract polygon))
      (picks : list (nat * VisitRow)) :
  most_visited (qualifying (pipeline_visit_counts within sh eh csv shp))
  = Ok picks ->
  exists s',
    run within csv shp (init polygon sh eh) = Ok (tt, s') /\
    night_data s' = Some (night_rows sh eh csv) /\
    days_available s' = Some (days_available_table (night_rows sh eh csv)) /\
    output_file s' = Some (map selected_columns picks) /\
    notices (stdout s')
    = users_without_home_locations (pipeline_visit_counts within sh eh csv shp).
Proof.
  intros Hpick. unfold run, bind.
  unfold load_data, bind, modify, print. simpl.
  unfold filter_night_time_data, bind, get, modify, print. simpl.
  unfold calculate_days_available, bind, get, modify, print. simpl.
  unfold spatial_join, bind, get, get_attr, print, modify, ret. simpl.
  unfold count_visits, bind, get, print, modify, ret. simpl.
  unfold pipeline_visit_counts, pipeline_night in Hpick.
  rewrite (filter_home_locations_run _ _ Hpick).
  unfold save_results, modify. eexists. split; [reflexivity|].
  simpl. repeat split.
  rewrite notices_app, notices_NoHome. simpl. now rewrite app_nil_r.
Qed.

End RunFacts.

(* ================================================================== *)
(** ** Spatial join and visit counts *)

Lemma key_eqb_pair (a u : Z) (b g : string) :
  key_eqb (a, b) (u, g) = (a =? u) && String.eqb b g.
Proof.
  apply eq_true_iff_eq.
  rewrite key_eqb_eq, andb_true_iff, Z.eqb_eq, String.eqb_eq.
  split; [intros [= -> ->]|intros [-> ->]]; auto.
Qed.

Lemma has_joined_key (u : Z) (g : string) (j : JoinedRow) :
  has_key joined_key (u, g) j = true <->
  user_ID (j_ping j) = u /\ j_GEOID j = Some g.
Proof.
  unfold has_key, joined_key. destruct (j_GEOID j) as [g'|]; simpl.
  - rewrite key_eqb_pair, andb_true_iff, Z.eqb_eq, String.eqb_eq.
    split; [intros [-> ->]|intros [-> [= ->]]]; auto.
  - split; [discriminate|intros [_ [=]]].
Qed.


Lemma group_sizes_eq (joined : list JoinedRow) :
  group_sizes joined
  = map (fun g => (fst g, Z.of_nat (length (snd g)))) (groupby joined_key joined).
Proof. reflexivity. Qed.

Lemma group_sizes_In (joined : list JoinedRow) (u : Z) (g : string) (n : Z) :
  In (u, g, n) (group_sizes joined) <->
  filter (has_key joined_key (u, g)) joined <> [] /\
  n = Z.of_nat (length (filter (has_key joined_key (u, g)) joined)).
Proof.
  rewrite group_sizes_eq, in_map_iff. split.
  - intros ([k vs] & E & Hin). simpl in E. injection E as Hk Hn. subst k n.
    apply groupby_spec in Hin. destruct Hin as [-> Hne]. auto.
  - intros [Hne ->].
    exists (u, g, filter (has_key joined_key (u, g)) joined).
    split; [reflexivity|]. apply groupby_spec. auto.
Qed.

Lemma group_sizes_sorted (joined : list JoinedRow) :
  StronglySorted key_lt (group_sizes joined).
Proof.
  rewrite group_sizes_eq.
  pose proof (groupby_sorted joined_key joined) as Hs.
  induction Hs as [|g rest Hs IH Hall]; simpl; constructor; auto.
  rewrite Forall_forall in *. intros y Hy. apply in_map_iff in Hy.
  destruct Hy as (x & <- & Hx). exact (Hall x Hx).
Qed.

Lemma visit_count_of_sizes (joined : list JoinedRow) (u : Z) (g : string) :
  visit_count_of u g (group_sizes joined)
  = Z.of_nat (length (filter (has_key joined_key (u, g)) joined)).
Proof.
  rewrite <- group_of_groupby, group_sizes_eq.
  unfold visit_count_of, group_of.
  induction (groupby joined_key joined) as [|x gs IH]; simpl; [reflexivity|].
  destruct (key_eqb (fst x) (u, g)); [reflexivity|exact IH].
Qed.

Section JoinFacts.
Variable polygon : Type.
Variable within : Q -> Q -> polygon -> bool.
Implicit Types (shp : list (Tract polygon)) (p : Ping).

Lemma sjoin_cons p (night : list Ping) shp :
  sjoin_left_within within (p :: night) shp
  = joined_rows_of within p shp ++ sjoin_left_within within night shp.
Proof.
  unfold sjoin_left_within, merge_left, joined_rows_of, containing. simpl.
  reflexivity.
Qed.

Lemma sjoin_app (l1 l2 : list Ping) shp :
  sjoin_left_within within (l1 ++ l2) shp
  = sjoin_left_within within l1 shp ++ sjoin_left_within within l2 shp.
Proof. unfold sjoin_left_within, merge_left. apply flat_map_app. Qed.

Lemma sjoin_split (l1 l2 : list Ping) p shp :
  sjoin_left_within within (l1 ++ p :: l2) shp
  = sjoin_left_within within l1 shp ++ joined_rows_of within p shp
      ++ sjoin_left_within within l2 shp.
Proof. now rewrite sjoin_app, sjoin_cons. Qed.

Lemma joined_rows_of_In p shp (j : JoinedRow) :
  In j (joined_rows_of within p shp) <->
  j_ping j = p /\
  ((containing within p shp = [] /\ j_GEOID j = None) \/
   (exists z, In z (containing within p shp) /\ j_GEOID j = Some (GEOID z))).
Proof.
  unfold joined_rows_of.
  destruct (containing within p shp) as [|z0 zs] eqn:E.
  - simpl. split.
    + intros [<-|[]]. simpl. auto.
    + intros [<- [[_ Hg]|(z & [] & _)]]. left. destruct j; simpl in *.
      now subst.
  - rewrite in_map_iff. split.
    + intros (z & <- & Hz). simpl. split; [reflexivity|]. right. eauto.
    + intros [<- [[[=] _]|(z & Hz & Hg)]]. exists z. split; [|exact Hz].
      destruct j; simpl in *. now subst.
Qed.

Lemma sjoin_In (night : list Ping) shp (j : JoinedRow) :
  In j (sjoin_left_within within night shp) <->
  exists p, In p night /\ In j (joined_rows_of within p shp).
Proof.
  induction night as [|q night IH].
  - simpl. split; [intros []|intros (p & [] & _)].
  - rewrite sjoin_cons, in_app_iff, IH. split.
    + intros [Hj|(p & Hp & Hj)]; [exists q|exists p]; simpl; auto.
    + intros (p & [<-|Hp] & Hj); [now left|right; eauto].
Qed.

(** A (user, tract) group exists only for a night ping of that user lying
    within a tract of that GEOID. *)
Lemma joined_key_witness (night : list Ping) shp (u : Z) (g : string) :
  filter (has_key joined_key (u, g)) (sjoin_left_within within night shp) <> []
  <->
  exists p z, In p night /\ user_ID p = u /\ In z shp /\ GEOID z = g /\
              within (orig_long p) (orig_lat p) (geometry z) = true.
Proof.
  split.
  - destruct (filter _ _) as [|j rest] eqn:E; [congruence|]. intros _.
    assert (Hj : In j (filter (has_key joined_key (u, g))
                              (sjoin_left_within within night shp)))
      by (rewrite E; now left).
    apply filter_In in Hj. destruct Hj as [Hj Hk].
    apply has_joined_key in Hk. destruct Hk as [Hu Hg].
    apply sjoin_In in Hj. destruct Hj as (p & Hp & Hj).
    apply joined_rows_of_In in Hj.
    destruct Hj as [Hjp [[_ Hnone]|(z & Hz & Hsome)]]; [congruence|].
    unfold containing in Hz. apply filter_In in Hz.
    exists p, z. repeat split; try tauto; congruence.
  - intros (p & z & Hp & Hu & Hz & Hg & Hw) E.
    assert (Hj : In (mkJoined p (Some g))
                    (filter (has_key joined_key (u, g))
                            (sjoin_left_within within night shp))).
    { apply filter_In. split.
      - apply sjoin_In. exists p. split; [exact Hp|].
        apply joined_rows_of_In. simpl. split; [reflexivity|]. right.
        exists z. split; [|now rewrite Hg].
        unfold containing. apply filter_In. tauto.
      - apply has_joined_key. simpl. auto. }
    rewrite E in Hj. destruct Hj.
Qed.

(** How many joined rows one ping adds to the group of [(u, g)]. *)
Lemma joined_rows_of_count p shp (u : Z) (g : string) :
  length (filter (has_key joined_key (u, g)) (joined_rows_of within p shp))
  = if user_ID p =? u
    then length (filter (fun z => String.eqb (GEOID z) g)
                        (containing within p shp))
    else 0%nat.
Proof.
  unfold joined_rows_of.
  destruct (containing within p shp) as [|z0 zs].
  - simpl. now destruct (user_ID p =? u).
  - generalize (z0 :: zs). intros l.
    induction l as [|z l IH]; simpl.
    + now destruct (user_ID p =? u).
    + unfold has_key at 1, joined_key at 1. simpl.
      rewrite key_eqb_pair.
      destruct (user_ID p =? u) eqn:Eu; simpl.
      * destruct (String.eqb (GEOID z) g); simpl; now rewrite IH.
      * exact IH.
Qed.

Lemma visit_count_contribution (l1 l2 : list Ping) p shp (u : Z) (g : string) :
  visit_count_of u g (group_sizes (sjoin_left_within within (l1 ++ p :: l2) shp))
  = visit_count_of u g (group_sizes (sjoin_left_within within (l1 ++ l2) shp))
    + (if user_ID p =? u
       then Z.of_nat (length (filter (fun z => String.eqb (GEOID z) g)
                                     (containing within p shp)))
       else 0).
Proof.
  rewrite !visit_count_of_sizes, sjoin_split, sjoin_app.
  rewrite !filter_app, !length_app, joined_rows_of_count.
  destruct (user_ID p =? u); lia.
Qed.

End JoinFacts.

(* ================================================================== *)
(** ** The visit-count table of a run *)

Section VisitCounts.
Variable polygon : Type.
Variable within : Q -> Q -> polygon -> bool.
Implicit Types (shp : list (Tract polygon)) (night : list Ping).

Lemma coverage_of_In night (u : Z) :
  In (coverage_of night u) (days_available_table night) <->
  exists p, In p night /\ user_ID p = u.
Proof.
  rewrite days_available_In, <- user_rows_nonempty. unfold coverage_of.
  simpl. tauto.
Qed.

Lemma coverage_unique night (c : CoverageRow) :
  In c (days_available_table night) -> c = coverage_of night (c_user_ID c).
Proof.
  intros Hc. apply days_available_In in Hc. destruct Hc as (_ & Hd & Hm).
  unfold coverage_of. destruct c; simpl in *. now subst.
Qed.

(** The table [count_visits] returns in a run: every group row gets the
    columns of its user's coverage record. *)
Lemma visit_counts_rows night shp :
  visit_counts_table (sjoin_left_within within night shp)
                     (days_available_table night)
  = range_index (map (visit_row night)
                     (group_sizes (sjoin_left_within within night shp))).
Proof.
  unfold visit_counts_table. f_equal.
  apply merge_left_one_to_one
    with (partner := fun l : Z * string * Z => coverage_of night (fst (fst l))).
  intros [[u g] n] Hl. simpl.
  apply group_sizes_In in Hl. destruct Hl as [Hne _].
  apply joined_key_witness in Hne. destruct Hne as (p & z & Hp & Hu & _).
  apply (filter_unique_key c_user_ID (days_available_table night)
                           (coverage_of night u)).
  - rewrite days_available_users. apply days_per_user_NoDup.
  - apply coverage_of_In. eauto.
Qed.

Lemma visit_counts_In night shp (i : nat) (r : VisitRow) :
  In (i, r) (visit_counts_table (sjoin_left_within within night shp)
                                (days_available_table night)) ->
  exists n, In (v_user_ID r, v_GEOID r, n)
               (group_sizes (sjoin_left_within within night shp)) /\
            r = visit_row night (v_user_ID r, v_GEOID r, n).
Proof.
  rewrite visit_counts_rows. intros Hin.
  apply (in_map snd) in Hin. rewrite range_index_snd in Hin. simpl in Hin.
  apply in_map_iff in Hin. destruct Hin as ([[u g] n] & <- & Hl).
  exists n. simpl. auto.
Qed.

End VisitCounts.

(** C7: in a run, the min_visits (and number_of_days) attached to every
    visit-count row are those of the one coverage record of the row's user,
    so two rows of the same user carry the same threshold. *)
Theorem visit_rows_carry_user_threshold :
  forall (polygon : Type) (within : Q -> Q -> polygon -> bool)
         (sh eh : Z) (csv : list Ping) (shp : list (Tract polygon)),
    (forall i r,
        In (i, r) (pipeline_visit_counts within sh eh csv shp) ->
        exists c,
          In c (days_available_table (night_rows sh eh csv)) /\
          c_user_ID c = v_user_ID r /\
          v_min_visits r = Some (c_min_visits c) /\
          v_number_of_days r = Some (c_number_of_days c) /\
          (forall c', In c' (days_available_table (night_rows sh eh csv)) ->
                      c_user_ID c' = v_user_ID r -> c' = c)) /\
    (forall i r i' r',
        In (i, r) (pipeline_visit_counts within sh eh csv shp) ->
        In (i', r') (pipeline_visit_counts within sh eh csv shp) ->
        v_user_ID r = v_user_ID r' -> v_min_visits r = v_min_visits r').
Proof.
  intros polygon within sh eh csv shp.
  unfold pipeline_visit_counts, pipeline_night.
  set (night := night_rows sh eh csv).
  assert (Hrow : forall i r,
             In (i, r) (visit_counts_table (sjoin_left_within within night shp)
                                           (days_available_table night)) ->
             In (coverage_of night (v_user_ID r)) (days_available_table night) /\
             v_min_visits r = Some (c_min_visits (coverage_of night (v_user_ID r))) /\
             v_number_of_days r
             = Some (c_number_of_days (coverage_of night (v_user_ID r)))).
  { intros i r Hin. apply visit_counts_In in Hin.
    destruct Hin as (n & Hl & Hr). split.
    - apply coverage_of_In. apply group_sizes_In in Hl. destruct Hl as [Hne _].
      apply joined_key_witness in Hne. destruct Hne as (p & z & Hp & Hu & _).
      eauto.
    - rewrite Hr at 1 3. simpl. auto. }
  split.
  - intros i r Hin. destruct (Hrow i r Hin) as (Hc & Hm & Hd).
    exists (coverage_of night (v_user_ID r)).
    repeat split; auto.
    intros c' Hc' Hu. apply coverage_unique in Hc'. rewrite Hc'. now rewrite Hu.
  - intros i r i' r' Hin Hin' Hu.
    destruct (Hrow i r Hin) as (_ & -> & _).
    destruct (Hrow i' r' Hin') as (_ & -> & _). now rewrite Hu.
Qed.

(* ================================================================== *)
(** ** Home selection *)

Lemma meets_min_visits_spec (r : VisitRow) :
  meets_min_visits r = true <->
  exists m, v_min_visits r = Some m /\ m <= v_visit_count r.
Proof.
  unfold meets_min_visits. destruct (v_min_visits r) as [m|].
  - rewrite Z.leb_le. split; [eauto|]. now intros (m' & [= <-] & H).
  - split; [discriminate|]. now intros (m & [=] & _).
Qed.

Lemma visit_counts_table_NoDup (joined : list JoinedRow) (cov : list CoverageRow) :
  NoDup (map fst (visit_counts_table joined cov)).
Proof. unfold visit_counts_table. apply range_index_NoDup. Qed.

(** Selection on any frame with distinct row labels. *)
Lemma filter_home_locations_spec (polygon : Type)
      (vc : list (nat * VisitRow)) (s : Self polygon) :
  NoDup (map fst vc) ->
  exists out s',
    filter_home_locations vc s = Ok (out, s') /\
    notices (stdout s') = notices (stdout s) ++ users_without_home_locations vc /\
    NoDup (map h_user_ID out) /\
    (forall u, (exists h, In h out /\ h_user_ID h = u) <->
               (exists i r, In (i, r) vc /\ v_user_ID r = u /\
                            meets_min_visits r = true)) /\
    (forall h, In h out ->
       exists i r l1 l2,
         vc = l1 ++ (i, r) :: l2 /\
         h = mkHome (v_user_ID r) (v_GEOID r) (v_number_of_days r)
                    (v_visit_count r) /\
         meets_min_visits r = true /\
         (forall y, In y l1 -> v_user_ID (snd y) = v_user_ID r ->
                    meets_min_visits (snd y) = true ->
                    v_visit_count (snd y) < v_visit_count r) /\
         (forall y, In y l2 -> v_user_ID (snd y) = v_user_ID r ->
                    meets_min_visits (snd y) = true ->
                    v_visit_count (snd y) <= v_visit_count r)).
Proof.
  intros Hnd.
  destruct (most_visited_spec vc Hnd) as (picks & Hpick & Husers & Hbest & Hall).
  exists (map selected_columns picks). eexists.
  split; [apply filter_home_locations_run; exact Hpick|].
  split; [|split; [|split]].
  - simpl. rewrite !notices_app, notices_NoHome. simpl. now rewrite app_nil_r.
  - rewrite map_map. exact Husers.
  - intros u. split.
    + intros (h & Hh & Hu). apply in_map_iff in Hh.
      destruct Hh as ([i r] & <- & Hr).
      destruct (Hbest _ Hr) as (Hm & l1 & l2 & -> & _).
      exists i, r. split; [apply in_elt|]. auto.
    + intros (i & r & Hr & Hu & Hm).
      destruct (Hall _ Hr Hm) as (h & Hh & Hhu).
      exists (selected_columns h). split; [now apply in_map|].
      simpl in *. congruence.
  - intros h Hh. apply in_map_iff in Hh. destruct Hh as ([i r] & <- & Hr).
    destruct (Hbest _ Hr) as (Hm & l1 & l2 & E & H1 & H2).
    exists i, r, l1, l2. auto.
Qed.

(** C1: the run of [filter_home_locations] on a visit-count table returns at
    most one row per user; a user has a row exactly when one of the user's
    rows has visit_count >= min_visits; the row is a qualifying row of the
    table with the largest visit_count among the user's qualifying rows, and
    it carries the user id, the zone id, number_of_days and that count. *)
Theorem home_assignment_is_max_qualifying :
  forall (polygon : Type) (joined : list JoinedRow) (cov : list CoverageRow)
         (s : Self polygon),
  exists out s',
    filter_home_locations (visit_counts_table joined cov) s = Ok (out, s') /\
    NoDup (map h_user_ID out) /\
    (forall u,
        (exists h, In h out /\ h_user_ID h = u) <->
        (exists i r m, In (i, r) (visit_counts_table joined cov) /\
                       v_user_ID r = u /\
                       v_min_visits r = Some m /\ m <= v_visit_count r)) /\
    (forall h, In h out ->
       exists i r m,
         In (i, r) (visit_counts_table joined cov) /\
         h = mkHome (v_user_ID r) (v_GEOID r) (v_number_of_days r)
                    (v_visit_count r) /\
         v_min_visits r = Some m /\ m <= v_visit_count r /\
         (forall j r' m',
             In (j, r') (visit_counts_table joined cov) ->
             v_user_ID r' = v_user_ID r ->
             v_min_visits r' = Some m' -> m' <= v_visit_count r' ->
             v_visit_count r' <= v_visit_count r)).
Proof.
  intros polygon joined cov s.
  destruct (filter_home_locations_spec _ s (visit_counts_table_NoDup joined cov))
    as (out & s' & Hrun & _ & Hnd & Hiff & Hbest).
  exists out, s'. split; [exact Hrun|]. split; [exact Hnd|]. split.
  - intros u. rewrite Hiff. split.
    + intros (i & r & Hr & Hu & Hm). apply meets_min_visits_spec in Hm.
      destruct Hm as (m & Hm & Hle). exists i, r, m. auto.
    + intros (i & r & m & Hr & Hu & Hm & Hle). exists i, r.
      repeat split; auto. apply meets_min_visits_spec. eauto.
  - intros h Hh.
    destruct (Hbest h Hh) as (i & r & l1 & l2 & E & Hrow & Hm & H1 & H2).
    apply meets_min_visits_spec in Hm. destruct Hm as (m & Hm & Hle).
    exists i, r, m. rewrite E.
    split; [apply in_elt|]. split; [exact Hrow|]. split; [exact Hm|].
    split; [exact Hle|].
    intros j r' m' Hr' Hu Hm' Hle'.
    assert (Hq : meets_min_visits r' = true)
      by (apply meets_min_visits_spec; eauto).
    apply in_app_or in Hr'. destruct Hr' as [Hr'|[Hr'|Hr']].
    + specialize (H1 (j, r') Hr' Hu Hq). simpl in H1. lia.
    + injection Hr' as _ <-. lia.
    + exact (H2 (j, r') Hr' Hu Hq).
Qed.

(* ================================================================== *)
(** ** Order of the visit-count table and ties *)

Unset Implicit Arguments.

Lemma StronglySorted_map {A B : Type} (R : B -> B -> Prop) (f : A -> B)
      (l : list A) :
  StronglySorted R (map f l) -> StronglySorted (fun a b => R (f a) (f b)) l.
Proof.
  induction l as [|a l IH]; simpl; intros Hs; [constructor|].
  inversion Hs as [|? ? Hs' Hall]; subst. constructor; [auto|].
  rewrite Forall_forall in *. intros y Hy. apply Hall. now apply in_map.
Qed.

Lemma StronglySorted_after {A : Type} (R : A -> A -> Prop) (l1 l2 : list A)
      (x : A) :
  StronglySorted R (l1 ++ x :: l2) -> forall y, In y l2 -> R x y.
Proof.
  induction l1 as [|a l1 IH]; simpl; intros Hs y Hy;
    inversion Hs as [|? ? Hs' Hall]; subst.
  - rewrite Forall_forall in Hall. now apply Hall.
  - now apply IH.
Qed.

Lemma pipeline_visit_counts_sorted (polygon : Type)
      (within : Q -> Q -> polygon -> bool)
      (sh eh : Z) (csv : list Ping) (shp : list (Tract polygon)) :
  StronglySorted visit_key_lt (pipeline_visit_counts within sh eh csv shp).
Proof.
  unfold pipeline_visit_counts, pipeline_night. rewrite visit_counts_rows.
  apply (StronglySorted_map
           (fun a b : VisitRow =>
              cmp (v_user_ID a, v_GEOID a) (v_user_ID b, v_GEOID b) = Lt) snd).
  rewrite range_index_snd.
  pose proof (group_sizes_sorted
                (sjoin_left_within within (night_rows sh eh csv) shp)) as Hs.
  induction Hs as [|g rest Hs IH Hall]; simpl; constructor; auto.
  rewrite Forall_forall in *. intros y Hy. apply in_map_iff in Hy.
  destruct Hy as ([[u' g'] n'] & <- & Hx). destruct g as [[u0 g0] n0].
  exact (Hall _ Hx).
Qed.

(** C10: the visit-count table of a run is strictly ascending in
    (user_ID, GEOID).  For every user with a qualifying row,
    filter_home_locations returns exactly one row; it is a qualifying row of
    the table, its visit_count is the largest among the user's qualifying
    rows, and among the rows that attain it, it has the smallest GEOID. *)
Theorem tie_goes_to_smallest_geoid :
  forall (polygon : Type) (within : Q -> Q -> polygon -> bool)
         (sh eh : Z) (csv : list Ping) (shp : list (Tract polygon))
         (s : Self polygon),
    StronglySorted visit_key_lt (pipeline_visit_counts within sh eh csv shp) /\
    exists out s',
      filter_home_locations (pipeline_visit_counts within sh eh csv shp) s
      = Ok (out, s') /\
      (forall h, In h out ->
         exists i r m,
           In (i, r) (pipeline_visit_counts within sh eh csv shp) /\
           h = mkHome (v_user_ID r) (v_GEOID r) (v_number_of_days r)
                      (v_visit_count r) /\
           v_min_visits r = Some m /\ m <= v_visit_count r) /\
      (forall i r m,
          In (i, r) (pipeline_visit_counts within sh eh csv shp) ->
          v_min_visits r = Some m -> m <= v_visit_count r ->
          exists h,
            In h out /\ h_user_ID h = v_user_ID r /\
            (forall h', In h' out -> h_user_ID h' = v_user_ID r -> h' = h) /\
            v_visit_count r <= h_visit_count h /\
            (v_visit_count r = h_visit_count h ->
             String.leb (h_GEOID h) (v_GEOID r) = true)).
Proof.
  intros polygon within sh eh csv shp s.
  pose proof (pipeline_visit_counts_sorted _ within sh eh csv shp) as Hsorted.
  split; [exact Hsorted|].
  set (vc := pipeline_visit_counts within sh eh csv shp) in *.
  assert (Hnd : NoDup (map fst vc)) by apply visit_counts_table_NoDup.
  destruct (filter_home_locations_spec _ s Hnd)
    as (out & s' & Hrun & _ & Husers & Hiff & Hbest).
  exists out, s'. split; [exact Hrun|]. split.
  - intros h Hh.
    destruct (Hbest h Hh) as (i0 & r0 & l1 & l2 & E & Hrow & Hm0 & _).
    apply meets_min_visits_spec in Hm0. destruct Hm0 as (m0 & Hm0 & Hle0).
    exists i0, r0, m0. rewrite E. split; [apply in_elt|]. auto.
  - intros i r m Hr Hm Hle.
    assert (Hq : meets_min_visits r = true)
      by (apply meets_min_visits_spec; eauto).
    destruct (proj2 (Hiff (v_user_ID r))) as (h & Hh & Hu); [eauto|].
    exists h. split; [exact Hh|]. split; [exact Hu|]. split.
    + intros h' Hh' Hu'.
      apply (@NoDup_map_inj _ _ h_user_ID out h' h Husers Hh' Hh). congruence.
    + destruct (Hbest h Hh) as (i0 & r0 & l1 & l2 & E & Hrow & _ & H1 & H2).
      rewrite Hrow in Hu. simpl in Hu. rewrite Hrow. simpl.
      rewrite E in Hr, Hsorted.
      apply in_app_or in Hr. destruct Hr as [Hr|[Hr|Hr]].
      * specialize (H1 (i, r) Hr (eq_sym Hu) Hq). simpl in H1.
        split; [lia|]. intros Heq. lia.
      * injection Hr as _ <-. split; [lia|]. intros _. unfold String.leb.
        now rewrite string_compare_refl.
      * specialize (H2 (i, r) Hr (eq_sym Hu) Hq). simpl in H2.
        split; [exact H2|]. intros _.
        pose proof (StronglySorted_after _ _ _ _ Hsorted (i, r) Hr) as Hlt.
        unfold visit_key_lt, visit_key, cmp, pair_Compare in Hlt. simpl in Hlt.
        rewrite <- Hu in Hlt.
        replace (cmp (v_user_ID r0) (v_user_ID r0)) with Eq in Hlt
          by (symmetry; apply Z.compare_refl).
        unfold String.leb. unfold cmp, string_Compare in Hlt. now rewrite Hlt.
Qed.

(* ================================================================== *)
(** ** Pings outside every tract *)





(* ================================================================== *)
(** ** Pings inside several tracts *)

(** C6, as amended: the join gives a ping one row per tract that contains
    it, in shapefile order (a single row without tract when none does), so
    the ping adds to the visit count of every tract containing it: one
    visit each when the tract ids are distinct. *)
Theorem ping_counts_in_every_containing_tract :
  forall (polygon : Type) (within : Q -> Q -> polygon -> bool)
         (l1 l2 : list Ping) (p : Ping) (shp : list (Tract polygon)),
    sjoin_left_within within (l1 ++ p :: l2) shp
    = sjoin_left_within within l1 shp
        ++ match containing within p shp with
           | [] => [mkJoined p None]
           | zs => map (fun z => mkJoined p (Some (GEOID z))) zs
           end
        ++ sjoin_left_within within l2 shp /\
    (forall u g,
        visit_count_of u g
          (group_sizes (sjoin_left_within within (l1 ++ p :: l2) shp))
        = visit_count_of u g
            (group_sizes (sjoin_left_within within (l1 ++ l2) shp))
          + (if user_ID p =? u
             then Z.of_nat (length (filter (fun z => String.eqb (GEOID z) g)
                                           (containing within p shp)))
             else 0)) /\
    (NoDup (map (@GEOID polygon) shp) ->
     forall z, In z (containing within p shp) ->
        visit_count_of (user_ID p) (GEOID z)
          (group_sizes (sjoin_left_within within (l1 ++ p :: l2) shp))
        = visit_count_of (user_ID p) (GEOID z)
            (group_sizes (sjoin_left_within within (l1 ++ l2) shp)) + 1).
Proof.
  intros polygon within l1 l2 p shp. split; [|split].
  - apply sjoin_split.
  - intros u g. apply visit_count_contribution.
  - intros Hnd z Hz. rewrite visit_count_contribution, Z.eqb_refl.
    f_equal.
    assert (Hnd' : NoDup (map (@GEOID polygon) (containing within p shp))).
    { unfold containing. clear Hz. induction shp as [|a shp IH]; simpl; [constructor|].
      inversion Hnd as [|? ? Hnotin Hnd']; subst.
      destruct (within _ _ _); simpl; auto. constructor; auto.
      rewrite in_map_iff in *. intros (x & Hx & Hin). apply Hnotin.
      exists x. split; [exact Hx|]. apply filter_In in Hin. tauto. }
    revert Hz Hnd'. generalize (containing within p shp). intros l.
    induction l as [|a l IH]; simpl; [tauto|].
    intros Hz Hnd'. inversion Hnd' as [|? ? Hnotin Hnd'']; subst.
    destruct Hz as [->|Hz].
    + rewrite (proj2 (String.eqb_eq _ _) eq_refl). simpl.
      rewrite filter_none; [reflexivity|].
      intros b Hb. apply String.eqb_neq. intros E. apply Hnotin.
      rewrite <- E. now apply in_map.
    + replace (String.eqb (GEOID a) (GEOID z)) with false; [now apply IH|].
      symmetry. apply String.eqb_neq. intros E. apply Hnotin.
      rewrite E. now apply in_map.
Qed.

(** C6, as stated, fails: a ping inside two tracts is joined to both and
    counted in both; the join does not keep the first match only. *)
Lemma overlapping_tracts_counted_twice :
  ~ (forall (p : Ping) (shp : list (Tract Box)) (z1 z2 : Tract Box)
            (zs : list (Tract Box)),
        containing within_box p shp = z1 :: z2 :: zs ->
        sjoin_left_within within_box [p] shp = [mkJoined p (Some (GEOID z1))]) /\
  map j_GEOID (sjoin_left_within within_box [ping_night_AB] [tract_A; tract_B])
  = [Some "A"; Some "B"] /\
  group_sizes (sjoin_left_within within_box [ping_night_AB] [tract_A; tract_B])
  = [(1, "A", 1); (1, "B", 1)].
Proof.
  split; [|split; reflexivity].
  intros H.
  specialize (H ping_night_AB [tract_A; tract_B] tract_A tract_B [] eq_refl).
  discriminate H.
Qed.

(* ================================================================== *)
(** ** Notices *)

Lemma frame_users_In (t : list (nat * VisitRow)) (u : Z) :
  In u (frame_users t) <-> exists i r, In (i, r) t /\ v_user_ID r = u.
Proof.
  unfold frame_users. rewrite unique_In, in_map_iff. split.
  - intros ([i r] & Hu & Hin). exists i, r. auto.
  - intros (i & r & Hin & Hu). exists (i, r). auto.
Qed.

(** Who gets a notice: the users with a visit-count row none of whose rows
    qualifies.  The users come from the visit-count table, not from the
    night data. *)
Lemma users_without_home_locations_In (vc : list (nat * VisitRow)) (u : Z) :
  In u (users_without_home_locations vc) <->
  (exists i r, In (i, r) vc /\ v_user_ID r = u) /\
  ~ (exists i r, In (i, r) vc /\ v_user_ID r = u /\ meets_min_visits r = true).
Proof.
  unfold users_without_home_locations, set_minus.
  rewrite filter_In, negb_true_iff, frame_users_In.
  assert (Hmem : existsb (Z.eqb u) (frame_users (qualifying vc)) = true <->
                 exists i r, In (i, r) vc /\ v_user_ID r = u /\
                             meets_min_visits r = true).
  { rewrite existsb_exists. split.
    - intros (x & Hx & Heq). apply Z.eqb_eq in Heq. subst x.
      apply frame_users_In in Hx. destruct Hx as (i & r & Hin & Hu).
      apply filter_In in Hin. exists i, r. tauto.
    - intros (i & r & Hin & Hu & Hm). exists u. split; [|apply Z.eqb_refl].
      apply frame_users_In. exists i, r. split; [|exact Hu].
      apply filter_In. auto. }
  destruct (existsb (Z.eqb u) (frame_users (qualifying vc))).
  - split; [intros [_ [=]]|]. intros [_ Hno]. exfalso. apply Hno.
    now apply Hmem.
  - split; [|tauto]. intros [Hrow _]. split; [exact Hrow|].
    intros Hq. apply Hmem in Hq. discriminate.
Qed.

(** C8, on the input that breaks it: user 2 has one night ping and no tract
    contains it.  The run succeeds, user 2 has a coverage record and no home
    row, and no notice is printed for user 2. *)
Theorem unmatched_user_gets_no_notice :
  exists s',
    run within_box [ping_night_nowhere] [tract_A] (init Box 22 6) = Ok (tt, s') /\
    night_data s' = Some [ping_night_nowhere] /\
    days_available s' = Some [mkCoverage 2 1 0] /\
    output_file s' = Some [] /\
    notices (stdout s') = [].
Proof.
  eexists. split; [vm_compute; reflexivity|]. repeat split.
Qed.

(* ================================================================== *)
(** ** Empty night data *)

(** C9: when the CSV file loads and no ping passes the night filter (an
    empty file included), no stage raises, from whatever state the instance
    is in: the night data, the coverage table, the joined frame, the
    visit-count table and the selected rows are all empty, an empty output is
    written and no notice is printed. *)
Theorem empty_night_flows_through_every_stage :
  forall (polygon : Type) (within : Q -> Q -> polygon -> bool)
         (csv : list Ping) (shp : list (Tract polygon)) (s : Self polygon),
    forallb in_datetime_range (map unix_start_t csv) = true ->
    night_rows (start_hour s) (end_hour s) csv = [] ->
    exists s0 s1 s2 s3 s4 s5 s6,
      load_data_checked csv shp s = Ok (tt, s0) /\
      filter_night_time_data s0 = Ok (tt, s1) /\
      night_data s1 = Some [] /\
      calculate_days_available s1 = Ok (tt, s2) /\
      days_available s2 = Some [] /\
      spatial_join within s2 = Ok ([], s3) /\
      count_visits [] s3 = Ok ([], s4) /\
      filter_home_locations [] s4 = Ok ([], s5) /\
      save_results [] s5 = Ok (tt, s6) /\
      run_checked within csv shp s = Ok (tt, s6) /\
      output_file s6 = Some [] /\
      notices (stdout s6) = notices (stdout s).
Proof.
  intros polygon within csv shp s Hrange Hnone.
  do 7 eexists.
  split.
  { unfold load_data_checked, bind, modify, lift, to_datetime, print.
    rewrite Hrange. reflexivity. }
  split.
  { unfold filter_night_time_data, bind, get, modify, print. simpl.
    rewrite Hnone. reflexivity. }
  split; [reflexivity|].
  split.
  { unfold calculate_days_available, bind, get, modify, print. simpl.
    reflexivity. }
  split; [reflexivity|].
  split.
  { unfold spatial_join, bind, get, get_attr, print, ret. simpl. reflexivity. }
  split.
  { unfold count_visits, bind, get, print, ret. simpl. reflexivity. }
  split.
  { unfold filter_home_locations, bind, print, lift, ret. simpl. reflexivity. }
  split.
  { unfold save_results, modify. reflexivity. }
  split.
  { unfold run_checked, load_data_checked, bind, modify, lift, to_datetime, print.
    rewrite Hrange.
    unfold filter_night_time_data, bind, get, modify, print. simpl.
    rewrite Hnone. reflexivity. }
  split; [reflexivity|].
  simpl. rewrite !notices_app. simpl. now rewrite !app_nil_r.
Qed.

(** C9 at a concrete input: the only ping is a daytime ping. *)
Lemma empty_night_witness :
  exists s6,
    run_checked within_box [ping_day] [tract_A] (init Box 22 6) = Ok (tt, s6) /\
    output_file s6 = Some [] /\
    notices (stdout s6) = [].
Proof.
  destruct (empty_night_flows_through_every_stage
              Box within_box [ping_day] [tract_A] (init Box 22 6))
    as (s0 & s1 & s2 & s3 & s4 & s5 & s6 & H);
    [reflexivity|reflexivity|].
  exists s6. tauto.
Defined.

(* ================================================================== *)
(** ** The run as a whole *)

(** A run from a fresh instance on a CSV file that loads returns, whatever
    the rows are. *)
Lemma run_returns (polygon : Type) (within : Q -> Q -> polygon -> bool)
      (sh eh : Z) (csv : list Ping) (shp : list (Tract polygon)) :
  exists s' out,
    run within csv shp (init polygon sh eh) = Ok (tt, s') /\
    pipeline_home within sh eh csv shp = Ok out /\
    output_file s' = Some out /\
    notices (stdout s')
    = users_without_home_locations (pipeline_visit_counts within sh eh csv shp).
Proof.
  destruct (most_visited_spec (pipeline_visit_counts within sh eh csv shp))
    as (picks & Hpick & _); [apply visit_counts_table_NoDup|].
  destruct (run_steps within sh eh csv shp Hpick)
    as (s' & Hrun & _ & _ & Hout & Hnot).
  exists s', (map selected_columns picks).
  unfold pipeline_home. rewrite Hpick. simpl. auto.
Qed.

(** In every run, a user whose night pings all lie outside every tract is
    not among the notices, although the user has night data. *)
Lemma all_unmatched_user_never_noticed (polygon : Type)
      (within : Q -> Q -> polygon -> bool)
      (sh eh : Z) (csv : list Ping) (shp : list (Tract polygon)) (u : Z) :
  (forall q z, In q (night_rows sh eh csv) -> user_ID q = u -> In z shp ->
               within (orig_long q) (orig_lat q) (geometry z) = false) ->
  exists s',
    run within csv shp (init polygon sh eh) = Ok (tt, s') /\
    ~ In u (notices (stdout s')).
Proof.
  intros Hall.
  destruct (run_returns polygon within sh eh csv shp)
    as (s' & out & Hrun & _ & _ & Hnot).
  exists s'. split; [exact Hrun|]. rewrite Hnot. intros Hin.
  apply users_without_home_locations_In in Hin.
  destruct Hin as [(i & r & Hr & Hu) _].
  unfold pipeline_visit_counts, pipeline_night in Hr.
  apply visit_counts_In in Hr. destruct Hr as (n & Hl & _).
  apply group_sizes_In in Hl. destruct Hl as [Hne _].
  apply joined_key_witness in Hne.
  destruct Hne as (q & z & Hq & Hqu & Hz & _ & Hw).
  rewrite (Hall q z Hq) in Hw; [discriminate|congruence|exact Hz].
Qed.

(* ================================================================== *)
(** ** More on the night window *)

Lemma night_mask_swap (sh eh h : Z) :
  sh <> eh -> night_mask eh sh h = negb (night_mask sh eh h).
Proof.
  intros Hne. unfold night_mask.
  destruct (Z.ltb_spec sh eh), (Z.ltb_spec eh sh); try lia;
    destruct (Z.leb_spec sh h), (Z.leb_spec eh h),
             (Z.ltb_spec h sh), (Z.ltb_spec h eh); simpl; try reflexivity; lia.
Qed.

(** X1: exchanging the start and the end hour of the window (when they
    differ) selects exactly the pings the original window leaves out: the
    two filters split the data, keeping the order of the rows. *)
Theorem swapped_window_is_complement :
  forall (sh eh : Z) (rows : list Ping),
    sh <> eh ->
    night_rows eh sh rows
    = filter (fun p => negb (night_mask sh eh (hour p))) rows /\
    (forall p, In p rows ->
               (In p (night_rows sh eh rows) <-> ~ In p (night_rows eh sh rows))) /\
    (length (night_rows sh eh rows) + length (night_rows eh sh rows)
     = length rows)%nat.
Proof.
  intros sh eh rows Hne.
  assert (Heq : night_rows eh sh rows
                = filter (fun p => negb (night_mask sh eh (hour p))) rows).
  { unfold night_rows. apply filter_ext. intros p. now apply night_mask_swap. }
  split; [exact Heq|]. split.
  - intros p Hp. rewrite Heq. unfold night_rows. rewrite !filter_In.
    destruct (night_mask sh eh (hour p)); simpl; intuition congruence.
  - rewrite Heq. unfold night_rows. clear Heq.
    induction rows as [|p rows IH]; simpl; [reflexivity|].
    destruct (night_mask sh eh (hour p)); simpl; lia.
Qed.

(** X1 at the default window. *)
Lemma swapped_window_witness :
  night_rows 6 22 [ping_night_A; ping_day]
  = filter (fun p => negb (night_mask 22 6 (hour p))) [ping_night_A; ping_day].
Proof.
  apply (swapped_window_is_complement 22 6 [ping_night_A; ping_day]). lia.
Defined.

(** X2: when the start and the end hour are equal the window is the whole
    day: every ping is night data, whatever its timestamp. *)
Theorem equal_bounds_keep_everything :
  forall (polygon : Type) (s : Self polygon) (rows : list Ping),
    night_rows (start_hour s) (start_hour s) rows = rows /\
    (df s = Some rows -> end_hour s = start_hour s ->
     exists s', filter_night_time_data s = Ok (tt, s') /\
                night_data s' = Some rows).
Proof.
  intros polygon s rows.
  assert (Hall : forall h rows', night_rows h h rows' = rows').
  { intros h rows'. unfold night_rows.
    induction rows' as [|p rows' IH]; simpl; [reflexivity|].
    replace (night_mask h h (hour p)) with true; [now rewrite IH|].
    unfold night_mask. rewrite Z.ltb_irrefl.
    destruct (Z.leb_spec h (hour p)), (Z.ltb_spec (hour p) h); simpl;
      try reflexivity; lia. }
  split; [apply Hall|]. intros Hdf Heh.
  unfold filter_night_time_data, bind, get, modify, print. rewrite Hdf. simpl.
  rewrite Heh, Hall. eexists. split; reflexivity.
Qed.

(* ================================================================== *)
(** ** More on thresholds and coverage *)

Lemma min_visits_spec_bounds (d : Z) :
  0 <= min_visits_spec d /\ (0 <= d -> min_visits_spec d <= d) /\
  (21 < d -> 4 <= min_visits_spec d) /\ (d <= 21 -> min_visits_spec d <= 4).
Proof.
  unfold min_visits_spec. repeat split; intros; decide_bounds; cbn [andb];
    try lia;
    pose proof (Z.div_mod (d + 6) 7 ltac:(lia));
    pose proof (Z.mod_pos_bound (d + 6) 7 ltac:(lia)); lia.
Qed.

Lemma min_visits_spec_mono (d d' : Z) :
  d <= d' -> min_visits_spec d <= min_visits_spec d'.
Proof.
  intros Hle. destruct (Z_le_gt_dec d' 21) as [H'|H'].
  - unfold min_visits_spec. decide_bounds; cbn [andb]; lia.
  - destruct (Z_le_gt_dec d 21) as [H|H].
    + destruct (min_visits_spec_bounds d) as (_ & _ & _ & Hd).
      destruct (min_visits_spec_bounds d') as (_ & _ & Hd' & _). lia.
    + unfold min_visits_spec. decide_bounds; cbn [andb].
      apply Z.div_le_mono; lia.
Qed.

(** X3: the threshold that calculate_days_available attaches never
    decreases when the day count grows, is never negative, and for a
    non-negative day count never exceeds the day count. *)
Theorem threshold_is_monotone_and_attainable :
  forall (days : list (Z * Z)) (c c' : CoverageRow),
    In c (assign_min_visits days) -> In c' (assign_min_visits days) ->
    (c_number_of_days c <= c_number_of_days c' ->
     c_min_visits c <= c_min_visits c') /\
    0 <= c_min_visits c /\
    (0 <= c_number_of_days c -> c_min_visits c <= c_number_of_days c).
Proof.
  intros days c c' Hc Hc'. rewrite assign_min_visits_map in Hc, Hc'.
  apply in_map_iff in Hc, Hc'.
  destruct Hc as ([u d] & <- & _), Hc' as ([u' d'] & <- & _). simpl.
  destruct (min_visits_spec_bounds d) as (H0 & Hd & _).
  split; [apply min_visits_spec_mono|]. auto.
Qed.

Lemma threshold_monotone_witness :
  c_min_visits (mkCoverage 1 9 2) <= c_min_visits (mkCoverage 2 29 5).
Proof.
  apply (threshold_is_monotone_and_attainable
           [(1, 9); (2, 29)] (mkCoverage 1 9 2) (mkCoverage 2 29 5)).
  - simpl. auto.
  - simpl. auto.
  - simpl. lia.
Defined.

Lemma unique_length_le (l : list Z) : (length (unique Z.eqb l) <= length l)%nat.
Proof.
  induction l as [|a l IH]; simpl; [lia|].
  pose proof (filter_length_le (fun b => negb (a =? b)) (unique Z.eqb l)). lia.
Qed.

Lemma days_available_sorted (night : list Ping) :
  StronglySorted (fun a b => c_user_ID a < c_user_ID b)
                 (days_available_table night).
Proof.
  unfold days_available_table. rewrite assign_min_visits_map.
  unfold days_per_user. rewrite map_map.
  pose proof (groupby_sorted (fun p => Some (user_ID p)) night) as Hs.
  induction Hs as [|g rest Hs IH Hall]; simpl; constructor; auto.
  rewrite Forall_forall in *. intros y Hy. apply in_map_iff in Hy.
  destruct Hy as (x & <- & Hx). simpl.
  specialize (Hall x Hx). unfold key_lt, cmp, Z_Compare in Hall.
  now apply Z.compare_lt_iff.
Qed.

(** X4: the coverage table comes out in strictly ascending user_ID order;
    every record counts at least one day and at most as many days as the
    user has night pings, and its threshold lies between 0 and its day
    count. *)
Theorem coverage_table_invariants :
  forall (night : list Ping),
    StronglySorted (fun a b => c_user_ID a < c_user_ID b)
                   (days_available_table night) /\
    (forall c, In c (days_available_table night) ->
       1 <= c_number_of_days c <= Z.of_nat (length (user_rows (c_user_ID c) night)) /\
       0 <= c_min_visits c <= c_number_of_days c).
Proof.
  intros night. split; [apply days_available_sorted|].
  intros c Hc. apply days_available_In in Hc. destruct Hc as (Hne & Hd & Hm).
  assert (Hdays : 1 <= c_number_of_days c
                  <= Z.of_nat (length (user_rows (c_user_ID c) night))).
  { rewrite Hd. unfold nunique.
    pose proof (unique_length_le (map date (user_rows (c_user_ID c) night))) as Hle.
    rewrite length_map in Hle.
    destruct (user_rows (c_user_ID c) night) as [|p rest]; [congruence|].
    simpl in *. lia. }
  split; [exact Hdays|]. rewrite Hm.
  destruct (min_visits_spec_bounds (c_number_of_days c)) as (H0 & Hle & _).
  lia.
Qed.

(* ================================================================== *)
(** ** More on the spatial join and the visit counts *)

Lemma joined_rows_of_pings (polygon : Type) (within : Q -> Q -> polygon -> bool)
      (p : Ping) (shp : list (Tract polygon)) :
  joined_rows_of within p shp <> [] /\
  Forall (fun j => j_ping j = p) (joined_rows_of within p shp) /\
  ((length (containing within p shp) <= 1)%nat ->
   map j_ping (joined_rows_of within p shp) = [p]).
Proof.
  unfold joined_rows_of. destruct (containing within p shp) as [|z zs].
  - repeat split; [discriminate|repeat constructor].
  - split; [discriminate|]. split.
    + apply Forall_forall. intros j Hj. apply in_map_iff in Hj.
      now destruct Hj as (x & <- & _).
    + simpl. intros Hlen. destruct zs; [reflexivity|simpl in Hlen; lia].
Qed.

Lemma sjoin_length_ge (polygon : Type) (within : Q -> Q -> polygon -> bool)
      (night : list Ping) (shp : list (Tract polygon)) :
  (length night <= length (sjoin_left_within within night shp))%nat.
Proof.
  induction night as [|p night IH]; [simpl; lia|].
  rewrite sjoin_cons, length_app.
  destruct (joined_rows_of_pings polygon within p shp) as (Hne & _).
  destruct (joined_rows_of within p shp); [congruence|simpl; lia].
Qed.

(** X5: the spatial join loses no night ping and invents none: the pings
    of the joined rows are exactly the night pings, the joined frame is at
    least as long as the night data, and when no ping lies in more than one
    tract the joined rows are the night pings, one row each, in order. *)
Theorem join_keeps_every_night_ping :
  forall (polygon : Type) (within : Q -> Q -> polygon -> bool)
         (night : list Ping) (shp : list (Tract polygon)),
    (forall p, In p night <->
               exists j, In j (sjoin_left_within within night shp) /\ j_ping j = p) /\
    (length night <= length (sjoin_left_within within night shp))%nat /\
    ((forall p, In p night -> (length (containing within p shp) <= 1)%nat) ->
     map j_ping (sjoin_left_within within night shp) = night).
Proof.
  intros polygon within night shp. split; [|split].
  - intros p. split.
    + intros Hp.
      destruct (joined_rows_of_pings polygon within p shp) as (Hne & Hall & _).
      destruct (joined_rows_of within p shp) as [|j rest] eqn:E; [congruence|].
      exists j. split.
      * apply sjoin_In. exists p. rewrite E. simpl. auto.
      * inversion Hall; auto.
    + intros (j & Hj & <-). apply sjoin_In in Hj. destruct Hj as (q & Hq & Hj).
      destruct (joined_rows_of_pings polygon within q shp) as (_ & Hall & _).
      rewrite Forall_forall in Hall. now rewrite (Hall j Hj).
  - apply sjoin_length_ge.
  - induction night as [|p night IH]; intros Hone; [reflexivity|].
    rewrite sjoin_cons, map_app.
    destruct (joined_rows_of_pings polygon within p shp) as (_ & _ & Hp).
    rewrite Hp by (apply Hone; now left). simpl. f_equal.
    apply IH. intros q Hq. apply Hone. now right.
Qed.

Lemma group_insert_total {K V : Type} `{Compare K} (k : K) (v : V)
      (gs : list (K * list V)) :
  total (map (fun g => Z.of_nat (length (snd g))) (group_insert k v gs))
  = 1 + total (map (fun g => Z.of_nat (length (snd g))) gs).
Proof.
  unfold total.
  induction gs as [|[k' vs] rest IH];
    cbn [group_insert map fold_right snd length]; [lia|].
  destruct (cmp k k'); cbn [map fold_right snd length].
  - lia.
  - lia.
  - rewrite IH. lia.
Qed.

Lemma groupby_total {K V : Type} `{Compare K} (key : V -> option K)
      (rows : list V) :
  total (map (fun g => Z.of_nat (length (snd g))) (groupby key rows))
  = Z.of_nat (length (filter (fun r => match key r with
                                        | Some _ => true
                                        | None => false
                                        end) rows)).
Proof.
  induction rows as [|r rows IH]; cbn [groupby fold_right filter];
    [reflexivity|].
  fold (groupby key rows).
  destruct (key r) as [k|]; [|exact IH].
  rewrite group_insert_total, IH. cbn [length]. lia.
Qed.

(** X6: every visit count is at least 1, the (user, tract) pairs of the
    table are pairwise distinct, and the counts add up to the number of
    joined rows that have a tract: rows without a tract are the only ones
    that count nowhere, and no row is counted twice. *)
Theorem visit_counts_add_up :
  forall (joined : list JoinedRow),
    (forall u g n, In (u, g, n) (group_sizes joined) -> 1 <= n) /\
    NoDup (map fst (group_sizes joined)) /\
    total (map snd (group_sizes joined))
    = Z.of_nat (length (filter has_tract joined)).
Proof.
  intros joined. split; [|split].
  - intros u g n Hin. apply group_sizes_In in Hin. destruct Hin as [Hne ->].
    destruct (filter _ joined); [congruence|simpl; lia].
  - apply sorted_keys_NoDup. apply group_sizes_sorted.
  - rewrite group_sizes_eq, map_map. simpl.
    rewrite (groupby_total joined_key joined). f_equal. f_equal.
    apply filter_ext. intros j. unfold joined_key, has_tract.
    now destruct (j_GEOID j).
Qed.

(* ================================================================== *)
(** ** More on the selection *)

Lemma most_visited_users (vc picks : list (nat * VisitRow)) :
  NoDup (map fst vc) ->
  most_visited (qualifying vc) = Ok picks ->
  map (fun h => v_user_ID (snd h)) picks
  = map fst (groupby user_key (qualifying vc)).
Proof.
  intros Hnd Hpicks.
  set (hl := qualifying vc) in *.
  assert (Hgroups : forall g, In g (groupby user_key hl) ->
                      snd g = filter (has_key user_key (fst g)) hl /\ snd g <> []).
  { intros [k vs] Hg. now apply groupby_spec in Hg. }
  destruct (@pick_groups hl (groupby user_key hl))
    as (labels & picks' & Hlab & Hloc & Hall).
  { now apply qualifying_labels_NoDup. }
  { apply Forall_forall. intros g Hg. destruct (Hgroups g Hg) as [E Hne].
    split; [exact Hne|]. rewrite E. intros x Hx. apply filter_In in Hx. tauto. }
  assert (Hsame : most_visited hl = Ok picks').
  { unfold most_visited, idxmax_per_user.
    change (fun r : nat * VisitRow => Some (v_user_ID (snd r))) with user_key.
    rewrite Hlab. exact Hloc. }
  rewrite Hsame in Hpicks. injection Hpicks as <-.
  symmetry.
  apply (@Forall2_map_eq _ _ _ _ fst (fun h => v_user_ID (snd h)) _ _ Hall).
  intros g h Hg Hmax. apply first_max_In in Hmax.
  rewrite (proj1 (Hgroups g Hg)) in Hmax. apply filter_In in Hmax.
  symmetry. now apply has_user_key.
Qed.

(** X7: filter_home_locations returns its rows in strictly ascending
    user_ID order, whatever the order of the qualifying rows' counts. *)
Theorem home_rows_ascending_by_user :
  forall (polygon : Type) (joined : list JoinedRow) (cov : list CoverageRow)
         (s : Self polygon),
  exists out s',
    filter_home_locations (visit_counts_table joined cov) s = Ok (out, s') /\
    StronglySorted (fun a b => h_user_ID a < h_user_ID b) out.
Proof.
  intros polygon joined cov s.
  pose proof (visit_counts_table_NoDup joined cov) as Hnd.
  destruct (most_visited_spec (visit_counts_table joined cov) Hnd)
    as (picks & Hpick & _).
  exists (map selected_columns picks). eexists.
  split; [apply filter_home_locations_run; exact Hpick|].
  pose proof (most_visited_users _ _ Hnd Hpick) as Husers.
  pose proof (groupby_sorted user_key (qualifying (visit_counts_table joined cov)))
    as Hs.
  apply (StronglySorted_map Z.lt h_user_ID).
  rewrite map_map. simpl. rewrite Husers.
  clear - Hs. induction Hs as [|g rest Hs IH Hall]; simpl; constructor; auto.
  rewrite Forall_forall in *. intros y Hy. apply in_map_iff in Hy.
  destruct Hy as (x & <- & Hx). specialize (Hall x Hx).
  unfold key_lt, cmp, Z_Compare in Hall. now apply Z.compare_lt_iff.
Qed.

Lemma users_without_home_locations_NoDup (vc : list (nat * VisitRow)) :
  NoDup (users_without_home_locations vc).
Proof.
  unfold users_without_home_locations, set_minus, frame_users.
  apply NoDup_filter. apply unique_NoDup.
Qed.

(** X8: filter_home_locations splits the users of the visit-count table in
    two: every user with a row there gets either one notice or one home row,
    never both, and nobody else gets either; the notices name no user
    twice. *)
Theorem every_table_user_gets_home_or_notice :
  forall (polygon : Type) (joined : list JoinedRow) (cov : list CoverageRow)
         (s : Self polygon),
  exists out s' ns,
    filter_home_locations (visit_counts_table joined cov) s = Ok (out, s') /\
    notices (stdout s') = notices (stdout s) ++ ns /\
    NoDup ns /\
    (forall u,
        ((exists i r, In (i, r) (visit_counts_table joined cov) /\
                      v_user_ID r = u) <->
         In u ns \/ In u (map h_user_ID out)) /\
        ~ (In u ns /\ In u (map h_user_ID out))).
Proof.
  intros polygon joined cov s.
  destruct (filter_home_locations_spec _ s (visit_counts_table_NoDup joined cov))
    as (out & s' & Hrun & Hnot & _ & Hiff & _).
  exists out, s', (users_without_home_locations (visit_counts_table joined cov)).
  split; [exact Hrun|]. split; [exact Hnot|].
  split; [apply users_without_home_locations_NoDup|].
  assert (Hout : forall u, In u (map h_user_ID out) <->
                           exists i r, In (i, r) (visit_counts_table joined cov) /\
                                       v_user_ID r = u /\
                                       meets_min_visits r = true).
  { intros u. rewrite <- Hiff, in_map_iff. split.
    - intros (h & Hu & Hh). eauto.
    - intros (h & Hh & Hu). eauto. }
  intros u. rewrite users_without_home_locations_In, Hout. split; [split|].
  - intros Hrow.
    destruct (in_dec Z.eq_dec u (map h_user_ID out)) as [Hin|Hnotin].
    + right. now apply Hout.
    + left. split; [exact Hrow|]. intros Hq. apply Hnotin. now apply Hout.
  - intros [[Hrow _]|(i & r & Hr & Hu & _)]; eauto.
  - tauto.
Qed.

(* ================================================================== *)
(** ** Running from any state, and running again *)

Lemma run_steps_any (polygon : Type) (within : Q -> Q -> polygon -> bool)
      (csv : list Ping) (shp : list (Tract polygon)) (s : Self polygon)
      (picks : list (nat * VisitRow)) :
  most_visited
    (qualifying (pipeline_visit_counts within (start_hour s) (end_hour s) csv shp))
  = Ok picks ->
  exists s',
    run within csv shp s = Ok (tt, s') /\
    start_hour s' = start_hour s /\ end_hour s' = end_hour s /\
    df s' = Some csv /\ tracts s' = Some shp /\
    night_data s' = Some (night_rows (start_hour s) (end_hour s) csv) /\
    days_available s'
    = Some (days_available_table (night_rows (start_hour s) (end_hour s) csv)) /\
    output_file s' = Some (map selected_columns picks) /\
    notices (stdout s')
    = notices (stdout s)
        ++ users_without_home_locations
             (pipeline_visit_counts within (start_hour s) (end_hour s) csv shp).
Proof.
  intros Hpick. unfold run, bind.
  unfold load_data, bind, modify, print. simpl.
  unfold filter_night_time_data, bind, get, modify, print. simpl.
  unfold calculate_days_available, bind, get, modify, print. simpl.
  unfold spatial_join, bind, get, get_attr, print, modify, ret. simpl.
  unfold count_visits, bind, get, print, modify, ret. simpl.
  unfold pipeline_visit_counts, pipeline_night in Hpick.
  rewrite (filter_home_locations_run _ _ Hpick).
  unfold save_results, modify. eexists. split; [reflexivity|].
  simpl. repeat split.
  rewrite !notices_app, notices_NoHome. simpl.
  now rewrite !app_nil_r.
Qed.

Lemma run_checked_loads (polygon : Type) (within : Q -> Q -> polygon -> bool)
      (csv : list Ping) (shp : list (Tract polygon)) (s : Self polygon) :
  forallb in_datetime_range (map unix_start_t csv) = true ->
  run_checked within csv shp s = run within csv shp s.
Proof.
  intros Hrange.
  unfold run_checked, run, load_data_checked, load_data, bind, modify, lift,
    to_datetime, print.
  rewrite Hrange. reflexivity.
Qed.

(** An epoch beyond the last timestamp makes the run raise before any
    table is computed. *)
Lemma run_checked_epoch_too_large (polygon : Type)
      (within : Q -> Q -> polygon -> bool)
      (csv : list Ping) (shp : list (Tract polygon)) (s : Self polygon)
      (p : Ping) :
  In p csv -> datetime_max < unix_start_t p ->
  run_checked within csv shp s = Raise OutOfBoundsDatetime.
Proof.
  intros Hp Hlarge.
  assert (Hrange : forallb in_datetime_range (map unix_start_t csv) = false).
  { destruct (forallb in_datetime_range (map unix_start_t csv)) eqn:E;
      [|reflexivity].
    rewrite forallb_forall in E.
    specialize (E (unix_start_t p) (in_map unix_start_t csv p Hp)).
    unfold in_datetime_range in E. apply andb_true_iff in E.
    destruct E as [_ E]. apply Z.leb_le in E. lia. }
  unfold run_checked, load_data_checked, bind, modify, lift, to_datetime, print.
  rewrite Hrange. reflexivity.
Qed.

Example run_checked_int64_max :
  run_checked within_box [mkPing 1 9223372036854775807 1 1] [tract_A]
              (init Box 22 6)
  = Raise OutOfBoundsDatetime.
Proof. reflexivity. Qed.

(** X9: on a CSV file that loads, run raises nothing from whatever state
    the instance is in: it overwrites the loaded data and every derived
    table, keeps the configured hours, and writes the rows of the pipeline
    for (hours, pings, tracts).  Running it again on the same files writes
    the same output and prints the same notices once more (in some order). *)
Theorem loaded_run_is_total_and_repeatable :
  forall (polygon : Type) (within : Q -> Q -> polygon -> bool)
         (csv : list Ping) (shp : list (Tract polygon)) (s : Self polygon),
    forallb in_datetime_range (map unix_start_t csv) = true ->
    exists s1 s2 out ns1 ns2,
      run_checked within csv shp s = Ok (tt, s1) /\
      pipeline_home within (start_hour s) (end_hour s) csv shp = Ok out /\
      output_file s1 = Some out /\
      df s1 = Some csv /\ tracts s1 = Some shp /\
      start_hour s1 = start_hour s /\ end_hour s1 = end_hour s /\
      notices (stdout s1) = notices (stdout s) ++ ns1 /\
      Permutation ns1
        (users_without_home_locations
           (pipeline_visit_counts within (start_hour s) (end_hour s) csv shp)) /\
      run_checked within csv shp s1 = Ok (tt, s2) /\
      output_file s2 = Some out /\
      night_data s2 = night_data s1 /\
      days_available s2 = days_available s1 /\
      notices (stdout s2) = notices (stdout s1) ++ ns2 /\
      Permutation ns2 ns1.
Proof.
  intros polygon within csv shp s Hrange.
  destruct (most_visited_spec
              (pipeline_visit_counts within (start_hour s) (end_hour s) csv shp))
    as (picks & Hpick & _); [apply visit_counts_table_NoDup|].
  destruct (run_steps_any polygon within csv shp s picks Hpick)
    as (s1 & Hrun1 & Hsh & Heh & Hdf & Htr & Hnight & Hdays & Hout & Hnot).
  assert (Hpick1 : most_visited
                     (qualifying (pipeline_visit_counts
                                    within (start_hour s1) (end_hour s1) csv shp))
                   = Ok picks) by (rewrite Hsh, Heh; exact Hpick).
  destruct (run_steps_any polygon within csv shp s1 picks Hpick1)
    as (s2 & Hrun2 & _ & _ & _ & _ & Hnight2 & Hdays2 & Hout2 & Hnot2).
  rewrite Hsh, Heh in Hnight2, Hdays2, Hnot2.
  exists s1, s2, (map selected_columns picks),
    (users_without_home_locations
       (pipeline_visit_counts within (start_hour s) (end_hour s) csv shp)),
    (users_without_home_locations
       (pipeline_visit_counts within (start_hour s) (end_hour s) csv shp)).
  rewrite !run_checked_loads by exact Hrange.
  unfold pipeline_home. rewrite Hpick. simpl.
  repeat split; auto; congruence.
Qed.

(** X9 from a fresh instance, on the five nights of user 9. *)
Lemma loaded_run_witness :
  exists s1 s2 out,
    run_checked within_box five_nights [tract_A] (init Box 22 6) = Ok (tt, s1) /\
    output_file s1 = Some out /\
    run_checked within_box five_nights [tract_A] s1 = Ok (tt, s2) /\
    output_file s2 = Some out.
Proof.
  destruct (loaded_run_is_total_and_repeatable
              Box within_box five_nights [tract_A] (init Box 22 6))
    as (s1 & s2 & out & ns1 & ns2 & H1 & _ & Hout1 & _ & _ & _ & _ & _ & _
        & H2 & Hout2 & _); [reflexivity|].
  exists s1, s2, out. auto.
Defined.

(* ================================================================== *)
(** ** The order of the input rows does not matter *)









(* ================================================================== *)
(** ** The written rows in terms of the input *)

Lemma range_index_In {A : Type} (rows : list A) (x : A) :
  In x rows <-> exists i, In (i, x) (range_index rows).
Proof.
  rewrite <- (range_index_snd rows) at 1. rewrite in_map_iff. split.
  - intros ([i y] & <- & Hin). now exists i.
  - intros (i & Hin). now exists (i, x).
Qed.










(* ================================================================== *)
(** ** Users are handled independently *)





(* ================================================================== *)
(** ** Unmet thresholds and missing coverage records *)




(** X15: the merge of count_visits is a left merge: a (user, tract) group
    whose user has no coverage record keeps its row with number_of_days and
    min_visits missing; such a row never qualifies, so filter_home_locations
    writes no row for the user and prints a notice for it. *)
Theorem missing_coverage_never_qualifies :
  forall (polygon : Type) (joined : list JoinedRow) (cov : list CoverageRow)
         (s : Self polygon) (u : Z) (j : JoinedRow) (g : string),
    (forall c, In c cov -> c_user_ID c <> u) ->
    In j joined -> user_ID (j_ping j) = u -> j_GEOID j = Some g ->
    exists out s',
      filter_home_locations (visit_counts_table joined cov) s = Ok (out, s') /\
      (forall i r, In (i, r) (visit_counts_table joined cov) -> v_user_ID r = u ->
                   v_min_visits r = None /\ v_number_of_days r = None) /\
      (forall h, In h out -> h_user_ID h <> u) /\
      In u (notices (stdout s')).
Proof.
  intros polygon joined cov s u j g Hnone Hj Hju Hjg.
  assert (Hrows : forall i r,
             In (i, r) (visit_counts_table joined cov) -> v_user_ID r = u ->
             v_min_visits r = None /\ v_number_of_days r = None).
  { intros i r Hin Hu. apply (in_map snd) in Hin.
    unfold visit_counts_table in Hin. rewrite range_index_snd in Hin.
    simpl in Hin. apply merge_left_In in Hin.
    destruct Hin as (l & _ & [[_ ->]|(c & Hc & Hon & ->)]); [simpl; auto|].
    simpl in Hu. apply Z.eqb_eq in Hon. exfalso.
    apply (Hnone c Hc). congruence. }
  assert (Hrow : exists i r, In (i, r) (visit_counts_table joined cov) /\
                             v_user_ID r = u).
  { assert (Hne : filter (has_key joined_key (u, g)) joined <> []).
    { intros E.
      assert (Hin : In j (filter (has_key joined_key (u, g)) joined))
        by (apply filter_In; split; [exact Hj|now apply has_joined_key]).
      rewrite E in Hin. destruct Hin. }
    set (n := Z.of_nat (length (filter (has_key joined_key (u, g)) joined))).
    assert (Hl : In (u, g, n) (group_sizes joined))
      by (apply group_sizes_In; auto).
    unfold visit_counts_table.
    assert (Hr : In (mkVisit u g n None None)
                    (merge_left (fun (l : Z * string * Z) c =>
                                   fst (fst l) =? c_user_ID c)
                                (fun l c => mkVisit (fst (fst l)) (snd (fst l)) (snd l)
                                                    (option_map c_number_of_days c)
                                                    (option_map c_min_visits c))
                                (group_sizes joined) cov)).
    { apply merge_left_In. exists (u, g, n). split; [exact Hl|]. left.
      split; [|reflexivity]. apply filter_none. intros c Hc. simpl.
      apply Z.eqb_neq. intros E. apply (Hnone c Hc). now symmetry. }
    apply range_index_In in Hr. destruct Hr as (i & Hi).
    exists i. eexists. split; [exact Hi|reflexivity]. }
  destruct (filter_home_locations_spec _ s (visit_counts_table_NoDup joined cov))
    as (out & s' & Hrun & Hnot & _ & Hiff & _).
  assert (Hnoq : ~ (exists i r, In (i, r) (visit_counts_table joined cov) /\
                                v_user_ID r = u /\ meets_min_visits r = true)).
  { intros (i & r & Hin & Hu & Hm). destruct (Hrows i r Hin Hu) as [Hmv _].
    unfold meets_min_visits in Hm. rewrite Hmv in Hm. discriminate. }
  exists out, s'. split; [exact Hrun|]. split; [exact Hrows|]. split.
  - intros h Hh Hu. apply Hnoq. apply Hiff. eauto.
  - rewrite Hnot. apply in_or_app. right.
    apply users_without_home_locations_In. auto.
Qed.

(** X15 with an empty coverage table. *)
Lemma missing_coverage_witness :
  exists out s',
    filter_home_locations
      (visit_counts_table [mkJoined ping_night_A (Some "A")] []) (init Box 22 6)
    = Ok (out, s') /\
    In 1 (notices (stdout s')).
Proof.
  destruct (missing_coverage_never_qualifies
              Box [mkJoined ping_night_A (Some "A")] [] (init Box 22 6) 1
              (mkJoined ping_night_A (Some "A")) "A")
    as (out & s' & Hrun & _ & _ & Hin).
  - intros c [].
  - simpl. auto.
  - reflexivity.
  - reflexivity.
  - exists out, s'. auto.
Defined.

(* ================================================================== *)
(** ** An empty shapefile *)



(* ================================================================== *)
(** ** Calendar dates, not nights *)

(** X17: coverage counts calendar dates of the zone-less timestamps, not
    nights: two pings of one user one second apart, the first at 23:59:59,
    are both night pings under the window (22, 6) and make two days. *)
Theorem one_night_across_midnight_counts_two_days :
  forall (u t : Z) (x y : Q),
    t mod 86400 = 86399 ->
    night_rows 22 6 [mkPing u t x y; mkPing u (t + 1) x y]
    = [mkPing u t x y; mkPing u (t + 1) x y] /\
    days_available_table [mkPing u t x y; mkPing u (t + 1) x y]
    = [mkCoverage u 2 0].
Proof.
  intros u t x y Ht.
  pose proof (Z.div_mod t 86400 ltac:(lia)) as Hdm.
  set (q := t / 86400) in *.
  assert (Hd1 : date (mkPing u t x y) = q) by reflexivity.
  assert (Hd2 : date (mkPing u (t + 1) x y) = q + 1).
  { unfold date, datetime. simpl.
    symmetry. apply Z.div_unique with (r := 0); lia. }
  assert (Hh1 : hour (mkPing u t x y) = 23).
  { unfold hour, datetime. simpl.
    replace (t / 3600) with (24 * q + 23)
      by (apply Z.div_unique with (r := 3599); lia).
    symmetry. apply Z.mod_unique with (q := q); lia. }
  assert (Hh2 : hour (mkPing u (t + 1) x y) = 0).
  { unfold hour, datetime. simpl.
    replace ((t + 1) / 3600) with (24 * (q + 1) + 0)
      by (apply Z.div_unique with (r := 0); lia).
    symmetry. apply Z.mod_unique with (q := q + 1); lia. }
  split.
  - unfold night_rows. cbn [filter]. rewrite Hh1, Hh2. reflexivity.
  - unfold days_available_table. rewrite assign_min_visits_map.
    unfold days_per_user, groupby. cbn [fold_right group_insert user_ID].
    unfold cmp, Z_Compare. rewrite Z.compare_refl.
    cbn [map fst snd]. unfold nunique. cbn [map unique filter].
    rewrite Hd1, Hd2.
    replace (q =? q + 1) with false by (symmetry; apply Z.eqb_neq; lia).
    reflexivity.
Qed.

(** X17 at 1970-01-01 23:59:59. *)
Lemma across_midnight_witness :
  days_available_table [mkPing 4 86399 0 0; mkPing 4 (86399 + 1) 0 0]
  = [mkCoverage 4 2 0].
Proof.
  apply (one_night_across_midnight_counts_two_days 4 86399 0 0).
  reflexivity.
Defined.

(* ================================================================== *)
(** ** What a run prints *)

Lemma night_users_are_coverage_users (night : list Ping) :
  Permutation (unique Z.eqb (map user_ID night))
              (map c_user_ID (days_available_table night)).
Proof.
  apply NoDup_Permutation.
  - apply unique_NoDup.
  - rewrite days_available_users. apply days_per_user_NoDup.
  - intros u. rewrite unique_In, !in_map_iff. split.
    + intros (p & Hu & Hp). exists (coverage_of night u).
      split; [reflexivity|]. apply coverage_of_In. eauto.
    + intros (c & Hu & Hc). apply days_available_In in Hc.
      destruct Hc as (Hne & _). apply user_rows_nonempty in Hne.
      destruct Hne as (p & Hp & Hpu). exists p. split; [congruence|exact Hp].
Qed.

(** X18: the log of a run on a CSV file that loads: the seven summary
    prints in the order of the methods, then one notice per user without a
    qualifying row (in some order), then the selected rows, and nothing else.
    The number of night users printed by filter_night_time_data is the number
    of rows of the coverage table, and the joined frame is at least as long
    as the night data. *)
Theorem log_of_a_run :
  forall (polygon : Type) (within : Q -> Q -> polygon -> bool)
         (sh eh : Z) (csv : list Ping) (shp : list (Tract polygon)),
    forallb in_datetime_range (map unix_start_t csv) = true ->
    exists s' picks ns,
      run_checked within csv shp (init polygon sh eh) = Ok (tt, s') /\
      output_file s' = Some (map selected_columns picks) /\
      stdout s'
      = [MsgLoadedUsers (nunique Z.eqb (map user_ID csv));
         MsgNightRecords (Z.of_nat (length (night_rows sh eh csv)));
         MsgNightUsers (nunique Z.eqb (map user_ID (night_rows sh eh csv)));
         MsgNightUserIDs (unique Z.eqb (map user_ID (night_rows sh eh csv)));
         MsgDaysAvailable (days_available_table (night_rows sh eh csv));
         MsgJoinedRecords
           (Z.of_nat (length (sjoin_left_within within (night_rows sh eh csv) shp)));
         MsgVisitCounts (pipeline_visit_counts within sh eh csv shp)]
          ++ map MsgNoHome ns
          ++ [MsgHomeLocations picks] /\
      Permutation ns
        (users_without_home_locations
           (pipeline_visit_counts within sh eh csv shp)) /\
      nunique Z.eqb (map user_ID (night_rows sh eh csv))
      = Z.of_nat (length (days_available_table (night_rows sh eh csv))) /\
      Z.of_nat (length (night_rows sh eh csv))
      <= Z.of_nat (length (sjoin_left_within within (night_rows sh eh csv) shp)).
Proof.
  intros polygon within sh eh csv shp Hrange.
  destruct (most_visited_spec (pipeline_visit_counts within sh eh csv shp))
    as (picks & Hpick & _); [apply visit_counts_table_NoDup|].
  assert (Hrun : exists s',
             run within csv shp (init polygon sh eh) = Ok (tt, s') /\
             output_file s' = Some (map selected_columns picks) /\
             stdout s'
             = [MsgLoadedUsers (nunique Z.eqb (map user_ID csv));
                MsgNightRecords (Z.of_nat (length (night_rows sh eh csv)));
                MsgNightUsers (nunique Z.eqb (map user_ID (night_rows sh eh csv)));
                MsgNightUserIDs (unique Z.eqb (map user_ID (night_rows sh eh csv)));
                MsgDaysAvailable (days_available_table (night_rows sh eh csv));
                MsgJoinedRecords
                  (Z.of_nat (length (sjoin_left_within
                                       within (night_rows sh eh csv) shp)));
                MsgVisitCounts (pipeline_visit_counts within sh eh csv shp)]
                 ++ map MsgNoHome
                      (users_without_home_locations
                         (pipeline_visit_counts within sh eh csv shp))
                 ++ [MsgHomeLocations picks]).
  { unfold run, bind.
    unfold load_data, bind, modify, print. simpl.
    unfold filter_night_time_data, bind, get, modify, print. simpl.
    unfold calculate_days_available, bind, get, modify, print. simpl.
    unfold spatial_join, bind, get, get_attr, print, modify, ret. simpl.
    unfold count_visits, bind, get, print, modify, ret. simpl.
    unfold pipeline_visit_counts, pipeline_night in *.
    rewrite (filter_home_locations_run _ _ Hpick).
    unfold save_results, modify. eexists. split; [reflexivity|].
    split; reflexivity. }
  destruct Hrun as (s' & Hrun & Hout & Hlog).
  exists s', picks,
    (users_without_home_locations (pipeline_visit_counts within sh eh csv shp)).
  rewrite run_checked_loads by exact Hrange.
  split; [exact Hrun|]. split; [exact Hout|].
  split; [exact Hlog|]. split; [apply Permutation_refl|]. split.
  - unfold nunique. f_equal.
    rewrite (Permutation_length (night_users_are_coverage_users _)).
    apply length_map.
  - apply inj_le. apply sjoin_length_ge.
Qed.

(** X18 on one night ping inside tract A. *)
Lemma log_of_a_run_witness :
  exists s' picks,
    run_checked within_box [ping_night_A] [tract_A] (init Box 22 6) = Ok (tt, s') /\
    output_file s' = Some (map selected_columns picks).
Proof.
  destruct (log_of_a_run Box within_box 22 6 [ping_night_A] [tract_A])
    as (s' & picks & ns & Hrun & Hout & _); [reflexivity|].
  exists s', picks. auto.
Defined.

